(** * AUC-ROC walkthrough: the threshold-sweep metrics engine

    A shallow embedding of [src/pages/Page 1 Definition.py]:
    the score generator [DummyClassifier.predict], the per-sample
    confusion-matrix loop of [plot1] and [make_tpr_fpr], the TPR/FPR
    computation of [make_tpr_fpr] and [f1], and the 11-point threshold sweep.

    Python integers are [Z]; Python and NumPy floats are IEEE 754 binary64
    values, modelled by the Standard Library's executable specification
    [spec_float] at precision 53 and maximal exponent 1024; Python lists are
    Rocq lists with Python's indexing rules (negative indices wrap around
    once, anything else out of range raises [IndexError]); exceptions are an
    error monad. *)

From Stdlib Require Import ZArith List Bool Lia PeanoNat Permutation.
From Stdlib Require Import Floats.SpecFloat.
Import ListNotations.
Local Open Scope Z_scope.

(** ** Python run-time model *)

Module Py.

(** The exceptions the modelled code can raise. *)
Inductive exn : Type :=
| IndexError
| ValueError
| ZeroDivisionError
| OverflowError
| AssertionError.

Inductive result (A : Type) : Type :=
| Ok (a : A)
| Raise (e : exn).
Arguments Ok {A} a.
Arguments Raise {A} e.

Definition bind {A B : Type} (c : result A) (k : A -> result B) : result B :=
  match c with
  | Ok a => k a
  | Raise e => Raise e
  end.

Definition raises {A : Type} (c : result A) : bool :=
  match c with
  | Ok _ => false
  | Raise _ => true
  end.

(** [l[i]] and [l[i] = a] on a Python list of length [n]: an index in
    [0, n) is used as it is, an index in [-n, 0) counts from the end, every
    other index raises [IndexError]. *)
Definition norm_index (n : nat) (i : Z) : result nat :=
  if (0 <=? i) && (i <? Z.of_nat n) then Ok (Z.to_nat i)
  else if (- Z.of_nat n <=? i) && (i <? 0) then Ok (Z.to_nat (i + Z.of_nat n))
  else Raise IndexError.

Fixpoint replace_nth {A : Type} (k : nat) (a : A) (l : list A) : list A :=
  match l, k with
  | [], _ => []
  | _ :: tl, O => a :: tl
  | x :: tl, S k' => x :: replace_nth k' a tl
  end.

Definition getitem {A : Type} (l : list A) (i : Z) : result A :=
  bind (norm_index (length l) i) (fun k =>
  match nth_error l k with
  | Some a => Ok a
  | None => Raise IndexError
  end).

Definition setitem {A : Type} (l : list A) (i : Z) (a : A) : result (list A) :=
  bind (norm_index (length l) i) (fun k => Ok (replace_nth k a l)).

(** [a, b = l]: unpacking a list of exactly two elements. *)
Definition unpack2 {A : Type} (l : list A) : result (A * A) :=
  match l with
  | [a; b] => Ok (a, b)
  | _ => Raise ValueError
  end.

(** [range(n)] *)
Definition range (n : nat) : list Z := map Z.of_nat (seq 0 n).

End Py.

Import Py.

Declare Scope py_scope.
Delimit Scope py_scope with py.
Notation "x <- c ;; k" := (bind c (fun x => k))
  (at level 61, c at next level, right associativity) : py_scope.
Notation "' pat <- c ;; k" := (bind c (fun x => match x with pat => k end))
  (at level 61, pat pattern, c at next level, right associativity) : py_scope.
Local Open Scope py_scope.

(** ** Binary64 floating point *)

Module F64.

Definition prec : Z := 53.
Definition emax : Z := 1024.

Definition float : Type := spec_float.

Definition fadd : float -> float -> float := SFadd prec emax.
Definition fmul : float -> float -> float := SFmul prec emax.
Definition fdiv : float -> float -> float := SFdiv prec emax.

Definition flt (x y : float) : bool := SFltb x y.
Definition fle (x y : float) : bool := SFleb x y.
Definition fge (x y : float) : bool :=
  match SFcompare x y with
  | Some (Gt | Eq) => true
  | _ => false
  end.

Definition is_zero (x : float) : bool :=
  match x with
  | S754_zero _ => true
  | _ => false
  end.

Definition pos_zero : float := S754_zero false.
Definition one : float := S754_finite false 4503599627370496 (-52).

(** [float(n)] for a Python integer: the nearest binary64 value, ties to
    even; an integer that rounds beyond the largest finite value raises
    [OverflowError]. *)
Definition float_of_int (n : Z) : result float :=
  match binary_normalize prec emax n 0 false with
  | S754_infinity _ => Raise OverflowError
  | f => Ok f
  end.

(** [a / b] with a float divisor, as Python's [float_div]: a zero divisor
    raises [ZeroDivisionError]. *)
Definition truediv (a b : float) : result float :=
  if is_zero b then Raise ZeroDivisionError else Ok (fdiv a b).

(** [a / b] on two Python integers. For operands that binary64 represents
    exactly (as [0 .. 10] and [10] in the sweep) the correctly rounded
    quotient is the quotient of the two conversions. *)
Definition int_truediv (a b : Z) : result float :=
  if b =? 0 then Raise ZeroDivisionError
  else
    x <- float_of_int a ;;
    y <- float_of_int b ;;
    Ok (fdiv x y).

(** A decimal literal [n / d], correctly rounded. *)
Definition decimal (n d : Z) : float :=
  fdiv (binary_normalize prec emax n 0 false) (binary_normalize prec emax d 0 false).

(** The literal [1e-20] of the source: [0x1.79ca10c924223p-67]. *)
Definition eps : float := S754_finite false 6646139978924579 (-119).

End F64.

Import F64.

(** ** The metrics engine *)

Definition matrix : Type := list (list Z).

(** [confusion_matrix = [[0, 0], [0, 0]]] *)
Definition zero_matrix : matrix := [[0; 0]; [0; 0]].

(** [(probabilities >= threshold).astype(np.uint8)] *)
Definition predictions (probabilities : list float) (threshold : float) : list Z :=
  map (fun p => if fge p threshold then 1 else 0) probabilities.

(** [confusion_matrix[actual][predicted] += 1] *)
Definition incr_cell (cm : matrix) (actual predicted : Z) : result matrix :=
  row <- getitem cm actual ;;
  v <- getitem row predicted ;;
  row' <- setitem row predicted (v + 1) ;;
  setitem cm actual row'.

(** [for actual, predicted in zip(...): confusion_matrix[actual][predicted] += 1] *)
Fixpoint count_loop (cm : matrix) (pairs : list (Z * Z)) : result matrix :=
  match pairs with
  | [] => Ok cm
  | (actual, predicted) :: rest =>
      cm' <- incr_cell cm actual predicted ;;
      count_loop cm' rest
  end.

(** Lines 35-37 of [plot1] and 99-101 of [make_tpr_fpr]; [combine] is
    Python's [zip], which stops at the end of the shorter sequence. *)
Definition confusion_loop (probabilities : list float) (labels : list Z)
    (threshold : float) : result matrix :=
  count_loop zero_matrix (combine labels (predictions probabilities threshold)).

(** [probabilities[mask]] with a boolean mask: NumPy raises [IndexError]
    when the mask and the array differ in length. *)
Definition bool_mask {A : Type} (a : list A) (mask : list bool) : result (list A) :=
  if Nat.eqb (length a) (length mask)
  then Ok (map fst (filter snd (combine a mask)))
  else Raise IndexError.

(** [plot1]: the loop, then the two histogram selections
    [probabilities[labels == 1]] and [probabilities[labels == 0]]; the
    figure itself is rendering and carries no value back. *)
Definition plot1 (probabilities : list float) (labels : list Z)
    (threshold : float) : result matrix :=
  cm <- confusion_loop probabilities labels threshold ;;
  _ <- bool_mask probabilities (map (Z.eqb 1) labels) ;;
  _ <- bool_mask probabilities (map (Z.eqb 0) labels) ;;
  Ok cm.

(** [num / (num + other + 1e-20)] on two Python integers. *)
Definition rate (num other : Z) : result float :=
  s <- float_of_int (num + other) ;;
  n <- float_of_int num ;;
  truediv n (fadd s eps).

(** Lines 102-105 of [make_tpr_fpr] and 360-363 of [f1]:
    [fn, tp = confusion_matrix[1]; tn, fp = confusion_matrix[0]] and the two
    quotients, [tpr] first. *)
Definition rates (cm : matrix) : result (float * float) :=
  r1 <- getitem cm 1 ;;
  '(fn, tp) <- unpack2 r1 ;;
  r0 <- getitem cm 0 ;;
  '(tn, fp) <- unpack2 r0 ;;
  tpr <- rate tp fn ;;
  fpr <- rate fp tn ;;
  Ok (tpr, fpr).

(** One iteration of [for t in range(11)]. *)
Definition sweep_point (probabilities : list float) (labels : list Z) (t : Z)
    : result (float * float) :=
  t' <- int_truediv t 10 ;;
  cm <- confusion_loop probabilities labels t' ;;
  rates cm.

Fixpoint sweep_loop (probabilities : list float) (labels : list Z) (ts : list Z)
    (tpr fpr : list float) : result (list float * list float) :=
  match ts with
  | [] => Ok (tpr, fpr)
  | t :: rest =>
      '(a, b) <- sweep_point probabilities labels t ;;
      sweep_loop probabilities labels rest (tpr ++ [a]) (fpr ++ [b])
  end.

Definition make_tpr_fpr (probabilities : list float) (labels : list Z)
    : result (list float * list float) :=
  sweep_loop probabilities labels (range 11) [] [].

(** [f1]: the matrix of [plot1] and the two rates it writes out. *)
Definition f1 (probabilities : list float) (labels : list Z) (threshold : float)
    : result (float * float) :=
  cm <- plot1 probabilities labels threshold ;;
  rates cm.

(** ** The score generator *)

Section ScoreGenerator.

(** NumPy's global generator: its state, the state [np.random.seed(n)]
    resets it to, and one standard-normal draw. *)
Variable rng_state : Type.
Variable seed : Z -> rng_state.
Variable draw : rng_state -> float * rng_state.

(** [np.random.randn(n)] *)
Fixpoint randn (n : nat) (st : rng_state) : list float * rng_state :=
  match n with
  | O => ([], st)
  | S n' =>
      let (x, st1) := draw st in
      let (xs, st2) := randn n' st1 in
      (x :: xs, st2)
  end.

(** [self.pos_label_mean, self.pos_label_std = pos_label_args] and
    likewise for the negative class. *)
Record DummyClassifier : Type := {
  pos_label_mean : float;
  pos_label_std : float;
  neg_label_mean : float;
  neg_label_std : float
}.

(** A NumPy array of floats: its shape and its elements. *)
Record ndarray : Type := {
  shape : list nat;
  data : list float
}.

Definition ndim (a : ndarray) : nat := length (shape a).

(** [y[y == v].shape[0]] *)
Definition count_label (v : Z) (y : list Z) : nat :=
  length (filter (Z.eqb v) y).

(** [randn(n) * std + mean] *)
Definition scale (std mean : float) (zs : list float) : list float :=
  map (fun z => fadd (fmul z std) mean) zs.

(** [DummyClassifier.predict], in state-passing style over the global
    generator. *)
Definition predict (self : DummyClassifier) (X : ndarray) (y : list Z)
    (st : rng_state) : result (list float) * rng_state :=
  if negb (Nat.eqb (ndim X) 2) then (Raise AssertionError, st)
  else
    match shape X with
    | [_; _] =>
        let st := seed 40 in
        let (zs, st) := randn (count_label 1 y) st in
        let postives := scale (pos_label_std self) (pos_label_mean self) zs in
        let st := seed 40 in
        let (zs', st) := randn (count_label 0 y) st in
        let negatives := scale (neg_label_std self) (neg_label_mean self) zs' in
        (Ok (postives ++ negatives), st)
    | _ => (Raise ValueError, st)
    end.

End ScoreGenerator.

Arguments randn {rng_state} draw n st.
Arguments predict {rng_state} seed draw self X y st.

(** ** Specification-level definitions *)

(** The exact conversion of an integer of the counting range. *)
Definition of_Z (n : Z) : float := binary_normalize prec emax n 0 false.

(** The rate formula in the specification's words:
    [TP / (TP + FN + eps)] and [FP / (FP + TN + eps)], in binary64. *)
Definition computeRates_spec (TP FN FP TN : Z) : float * float :=
  (fdiv (of_Z TP) (fadd (of_Z (TP + FN)) eps),
   fdiv (of_Z FP) (fadd (of_Z (FP + TN)) eps)).

(** The threshold of sweep index [i]: [i / 10]. *)
Definition threshold_at (i : nat) : float := decimal (Z.of_nat i) 10.

(** How many of the [(actual, predicted)] pairs land in cell [(row, col)];
    a negative row index of the source counts from the end. *)
Fixpoint count_cell (row col : Z) (pairs : list (Z * Z)) : Z :=
  match pairs with
  | [] => 0
  | (actual, predicted) :: rest =>
      (if (actual mod 2 =? row) && (predicted =? col) then 1 else 0)
      + count_cell row col rest
  end.

Definition is_bit (z : Z) : Prop := z = 0 \/ z = 1.

(** The labels Python's indexing of a two-row list accepts. *)
Definition index_ok (l : Z) : Prop := -2 <= l < 2.

Definition pair_ok (ap : Z * Z) : Prop := index_ok (fst ap) /\ is_bit (snd ap).

(** The value of a sweep point that did not raise. *)
Definition point_or_nan (r : result (float * float)) : float * float :=
  match r with
  | Ok ab => ab
  | Raise _ => (S754_nan, S754_nan)
  end.

(** The scores of the specification's worked example:
    [0.9, 0.8, 0.3, 0.1]. *)
Definition example_scores : list float :=
  [decimal 9 10; decimal 8 10; decimal 3 10; decimal 1 10].

(** What the rate [num / (num + other + 1e-20)] can be: a value of the
    closed unit interval, [0] for a zero numerator, [1] when the other cell
    is empty, strictly in between otherwise. *)
Definition unit_rate (num other : Z) (r : float) : Prop :=
  fle pos_zero r = true /\ fle r one = true /\
  (num = 0 -> r = pos_zero) /\
  (0 < num -> other = 0 -> r = one) /\
  (0 < num -> 0 < other -> flt pos_zero r = true /\ flt r one = true).

(** ** The rest of the page: [plot2] and the data that [main] builds *)

(** [int(x)] on a float: truncation towards zero; a NaN raises
    [ValueError], an infinity [OverflowError]. *)
Definition int_of_float (x : float) : result Z :=
  match x with
  | S754_nan => Raise ValueError
  | S754_infinity _ => Raise OverflowError
  | S754_zero _ => Ok 0
  | S754_finite s m e =>
      let v := if 0 <=? e then Zpos m * 2 ^ e else Zpos m / 2 ^ (- e) in
      Ok (if s then - v else v)
  end.

(** [np.ceil(x)] *)
Definition fceil (x : float) : float :=
  match x with
  | S754_finite s m e =>
      if 0 <=? e then x
      else
        let q := Zpos m / 2 ^ (- e) in
        let r := Zpos m mod 2 ^ (- e) in
        if s then (if q =? 0 then S754_zero true else binary_normalize prec emax (- q) 0 true)
        else binary_normalize prec emax (if r =? 0 then q else q + 1) 0 false
  | _ => x
  end.

(** [int(threshold * 10)], the index of the annotated point of [plot2]. *)
Definition annotation_index (threshold : float) : result Z :=
  c <- float_of_int 10 ;;
  int_of_float (fmul threshold c).

(** [rand_series = np.arange(n) / 10] *)
Definition rand_series (n : nat) : list float :=
  map (fun i => decimal i 10) (range n).

(** What [plot2] hands to the figure: the two histogram selections, the ROC
    trace ([x = fpr], [y = tpr], filled when [area] is set), the diagonal of
    the random classifier and the annotated point. *)
Record figure2 : Type := {
  hist_positive : list float;
  hist_negative : list float;
  roc_x : list float;
  roc_y : list float;
  roc_filled : bool;
  diagonal : list float;
  annotation_x : float;
  annotation_y : float
}.

(** [plot2]. The index [int(threshold * 10)] is written twice in the source
    and evaluated twice to the same value; it is bound once here. *)
Definition plot2 (probabilities : list float) (labels : list Z)
    (tpr fpr : list float) (threshold : float) (area : bool) : result figure2 :=
  pos <- bool_mask probabilities (map (Z.eqb 1) labels) ;;
  neg <- bool_mask probabilities (map (Z.eqb 0) labels) ;;
  let n := length tpr in
  k <- annotation_index threshold ;;
  x <- getitem fpr k ;;
  y <- getitem tpr k ;;
  Ok {| hist_positive := pos; hist_negative := neg;
        roc_x := fpr; roc_y := tpr; roc_filled := area;
        diagonal := rand_series n;
        annotation_x := x; annotation_y := y |}.

(** [np.ones(k).astype(np.uint8)] and [np.zeros(k).astype(np.uint8)]: a
    negative length raises [ValueError]. *)
Definition np_full (v k : Z) : result (list Z) :=
  if k <? 0 then Raise ValueError else Ok (repeat v (Z.to_nat k)).

(** The label vector of [main], for its sample count [m] (1000 on the page):
    [np.hstack([np.ones(int(np.ceil(m / 2))), np.zeros(m // 2)])]. *)
Definition page_labels (m : Z) : result (list Z) :=
  h <- int_truediv m 2 ;;
  k <- int_of_float (fceil h) ;;
  ones <- np_full 1 k ;;
  zeros <- np_full 0 (m / 2) ;;
  Ok (ones ++ zeros).

(** [DummyClassifier(pos_label_args=(0.6, 0.01), neg_label_args=(0.2, 0.01))] *)
Definition page_clf : DummyClassifier :=
  {| pos_label_mean := decimal 6 10; pos_label_std := decimal 1 100;
     neg_label_mean := decimal 2 10; neg_label_std := decimal 1 100 |}.

Section Page.

Variable rng_state : Type.
Variable seed : Z -> rng_state.
Variable draw : rng_state -> float * rng_state.

(** The data each part of [main] builds: [labels], then
    [probs = clf.predict(some_rand_input, y=labels)]. [some_rand_input] is
    the result of [np.random.rand(m, n)] and [st] the state of the generator
    after that call. *)
Definition page_data (m : Z) (some_rand_input : ndarray) (st : rng_state)
    : result (list float * list Z) * rng_state :=
  match page_labels m with
  | Raise e => (Raise e, st)
  | Ok labels =>
      match predict seed draw page_clf some_rand_input labels st with
      | (Ok probs, st') => (Ok (probs, labels), st')
      | (Raise e, st') => (Raise e, st')
      end
  end.

(** The first figure: [plot1(probs, labels, threshold)] with
    [threshold = 0.5]. *)
Definition page_confusion (m : Z) (some_rand_input : ndarray) (st : rng_state)
    : result matrix * rng_state :=
  match page_data m some_rand_input st with
  | (Ok (probs, labels), st') => (plot1 probs labels (decimal 5 10), st')
  | (Raise e, st') => (Raise e, st')
  end.

(** Exercise 1: [f1(slider_value)]. *)
Definition page_exercise (m : Z) (some_rand_input : ndarray) (slider_value : float)
    (st : rng_state) : result (float * float) * rng_state :=
  match page_data m some_rand_input st with
  | (Ok (probs, labels), st') => (f1 probs labels slider_value, st')
  | (Raise e, st') => (Raise e, st')
  end.

(** The ROC part: [tpr, fpr = make_tpr_fpr(probs, labels)], then
    [f2(slider_value1)], which is
    [plot2(probs, labels, tpr, fpr, threshold, area=True)]. *)
Definition page_roc (m : Z) (some_rand_input : ndarray) (slider_value1 : float)
    (st : rng_state) : result figure2 * rng_state :=
  match page_data m some_rand_input st with
  | (Ok (probs, labels), st') =>
      (bind (make_tpr_fpr probs labels) (fun '(tpr, fpr) =>
         plot2 probs labels tpr fpr slider_value1 true), st')
  | (Raise e, st') => (Raise e, st')
  end.

End Page.

Arguments page_data {rng_state} seed draw m some_rand_input st.
Arguments page_confusion {rng_state} seed draw m some_rand_input st.
Arguments page_exercise {rng_state} seed draw m some_rand_input slider_value st.
Arguments page_roc {rng_state} seed draw m some_rand_input slider_value1 st.

(** ** Counting samples directly *)

(** The number of zipped [(label, score)] samples with the given label whose
    prediction at threshold [t] is [pred]. *)
Definition count_samples (label : Z) (pred : bool) (scores : list float)
    (labels : list Z) (t : float) : Z :=
  Z.of_nat (length (filter
    (fun ls => (fst ls =? label) && Bool.eqb (fge (snd ls) t) pred)
    (combine labels scores))).

(** ** Proof support: binary64 rounding, stage by stage *)

(** The last step of rounding: a mantissa that rounded up to [2^53] is
    renormalised to [2^52] with the exponent incremented. *)
Definition normalize_carry (sx : bool) (m : Z) (e : Z) : float :=
  if m =? 2 ^ 53 then S754_finite sx (Z.to_pos (2 ^ 52)) (e + 1)
  else S754_finite sx (Z.to_pos m) e.

(** The normal form of a positive integer below [2^53]: mantissa shifted up
    to 53 bits, exponent in [-52, 0]. *)
Definition norm53 (p : positive) : positive * Z :=
  shl_align p 0 (Zpos (digits2_pos p) - 53).

(** The four locations of a value between two mantissas, in order: exact,
    below the midpoint, at the midpoint, above it. *)
Definition loc_rank (l : location) : Z :=
  match l with
  | loc_Exact => 0
  | loc_Inexact Lt => 1
  | loc_Inexact Eq => 2
  | loc_Inexact Gt => 3
  end.

(** The rank of the location of a remainder [r] modulo [d]. *)
Definition rem_rank (d r : Z) : Z :=
  if r =? 0 then 0 else match 2 * r ?= d with Lt => 1 | Eq => 2 | Gt => 3 end.

(** Closes [Forall is_bit l] and [Forall index_ok l] on a literal list. *)
Ltac bits :=
  repeat (apply Forall_cons; [unfold is_bit, index_ok; lia | ]); apply Forall_nil.

(** Splits the comparisons of exponents and mantissas into their cases. *)
Ltac compare_cases :=
  repeat match goal with
         | |- context [Pos.compare_cont Eq ?a ?b] =>
             change (Pos.compare_cont Eq a b) with (Pos.compare a b)
         | H : context [Pos.compare_cont Eq ?a ?b] |- _ =>
             change (Pos.compare_cont Eq a b) with (Pos.compare a b) in H
         end;
  repeat match goal with
         | |- context [Z.compare ?a ?b] => destruct (Z.compare_spec a b)
         | H : context [Z.compare ?a ?b] |- _ => destruct (Z.compare_spec a b)
         | |- context [Pos.compare ?a ?b] => destruct (Pos.compare_spec a b)
         | H : context [Pos.compare ?a ?b] |- _ => destruct (Pos.compare_spec a b)
         end;
  cbn [CompOpp] in *; try reflexivity; try discriminate; try lia.

(** * Facts about binary64 arithmetic *)

(** The literals of the source are the correctly rounded decimals. *)
Lemma eps_literal : eps = decimal 1 (10 ^ 20).
Proof. vm_compute. reflexivity. Qed.

(** [eps] is within half a unit in the last place, [2^-120], of [10^-20]. *)
Lemma eps_nearest :
  2 * Z.abs (6646139978924579 * 10 ^ 20 - 2 ^ 119) <= 10 ^ 20.
Proof. vm_compute. discriminate. Qed.

Lemma one_literal : one = decimal 1 1.
Proof. vm_compute. reflexivity. Qed.

(** [digits2_pos p] is the bit length of [p]. *)
Lemma digits2_pos_bounds (p : positive) :
  2 ^ (Zpos (digits2_pos p) - 1) <= Zpos p < 2 ^ Zpos (digits2_pos p).
Proof.
  induction p as [p IH | p IH | ]; cbn [digits2_pos].
  - rewrite Pos2Z.inj_succ, (Pos2Z.inj_xI p).
    replace (Z.succ (Zpos (digits2_pos p)) - 1) with (Z.succ (Zpos (digits2_pos p) - 1)) by lia.
    rewrite !Z.pow_succ_r by lia. lia.
  - rewrite Pos2Z.inj_succ, (Pos2Z.inj_xO p).
    replace (Z.succ (Zpos (digits2_pos p)) - 1) with (Z.succ (Zpos (digits2_pos p) - 1)) by lia.
    rewrite !Z.pow_succ_r by lia. lia.
  - cbn. lia.
Qed.

Lemma digits2_pos_unique (p : positive) (d : Z) :
  2 ^ (d - 1) <= Zpos p < 2 ^ d -> Zpos (digits2_pos p) = d.
Proof.
  intros [Hlo Hhi].
  pose proof (digits2_pos_bounds p) as [Blo Bhi].
  set (d0 := Zpos (digits2_pos p)) in *.
  assert (0 < d0) by (unfold d0; lia).
  destruct (Z.lt_trichotomy d0 d) as [Hlt | [Heq | Hgt]]; [ | exact Heq | ].
  - assert (2 ^ d0 <= 2 ^ (d - 1)) by (apply Z.pow_le_mono_r; lia). lia.
  - assert (0 <= d).
    { destruct (Z.le_gt_cases 0 d); [assumption|]. rewrite Z.pow_neg_r in Hhi by lia. lia. }
    assert (2 ^ d <= 2 ^ (d0 - 1)) by (apply Z.pow_le_mono_r; lia). lia.
Qed.

(** Shifting a mantissa left by [d] bits multiplies it by [2^d]. *)
Lemma iter_xO_value (m d : positive) :
  Zpos (Pos.iter xO m d) = Zpos m * 2 ^ Zpos d.
Proof.
  induction d as [ | d IH ] using Pos.peano_ind.
  - cbn. lia.
  - rewrite Pos.iter_succ, (Pos2Z.inj_xO (Pos.iter xO m d)), IH, Pos2Z.inj_succ, Z.pow_succ_r by lia. lia.
Qed.

(** The binary iteration of [SpecFloat] is plain iteration. *)
Lemma iter_pos_nat {A : Type} (f : A -> A) (p : positive) (x : A) :
  iter_pos f p x = Nat.iter (Pos.to_nat p) f x.
Proof.
  revert x. induction p as [p IH | p IH | ]; intro x; cbn [iter_pos].
  - rewrite !IH, Pos2Nat.inj_xI.
    replace (S (2 * Pos.to_nat p))%nat with (Pos.to_nat p + S (Pos.to_nat p))%nat by lia.
    rewrite Nat.iter_add, Nat.iter_succ_r. reflexivity.
  - rewrite !IH, Pos2Nat.inj_xO.
    replace (2 * Pos.to_nat p)%nat with (Pos.to_nat p + Pos.to_nat p)%nat by lia.
    rewrite Nat.iter_add. reflexivity.
  - reflexivity.
Qed.

(** One right shift: halve, keep the bit shifted out as the round bit and
    fold the former round bit into the sticky bit. *)
Lemma shr_1_value (m : Z) (r s : bool) :
  0 <= m ->
  shr_1 (Build_shr_record m r s) = Build_shr_record (m / 2) (Z.odd m) (r || s).
Proof.
  intro Hm. destruct m as [ | p | p ]; [reflexivity | | lia].
  destruct p as [p | p | ]; cbn [shr_1].
  - f_equal. rewrite (Pos2Z.inj_xI p). apply Z.div_unique with 1; lia.
  - f_equal. rewrite (Pos2Z.inj_xO p). apply Z.div_unique with 0; lia.
  - reflexivity.
Qed.

(** [n + 1] right shifts of an exact value [v]: quotient, round bit
    [v.[n]], sticky bit [v mod 2^n <> 0]. *)
Lemma shr_iter_value (n : nat) (v : Z) :
  0 <= v ->
  Nat.iter (S n) shr_1 (Build_shr_record v false false) =
  Build_shr_record (v / 2 ^ Z.of_nat (S n)) (Z.testbit v (Z.of_nat n))
                   (negb (v mod 2 ^ Z.of_nat n =? 0)).
Proof.
  intro Hv. induction n as [ | n IH ].
  - cbn [Nat.iter]. rewrite shr_1_value by assumption.
    f_equal. rewrite Z.mod_1_r. reflexivity.
  - rewrite Nat.iter_succ, IH.
    rewrite shr_1_value by (apply Z.div_pos; lia).
    f_equal.
    + rewrite Z.div_div by lia. f_equal.
      rewrite (Nat2Z.inj_succ (S n)), Z.pow_succ_r by lia. lia.
    + rewrite (Nat2Z.inj_succ n), <- Z.bit0_odd, <- Z.shiftr_div_pow2 by lia.
      rewrite Z.shiftr_spec by lia. reflexivity.
    + pose proof (Z.testbit_spec' v (Z.of_nat n) ltac:(lia)) as Hb.
      rewrite (Nat2Z.inj_succ n), Z.pow_succ_r by lia.
      set (k := 2 ^ Z.of_nat n) in *.
      assert (0 < k) by (apply Z.pow_pos_nonneg; lia).
      rewrite (Z.mul_comm 2 k), Z.rem_mul_r by lia.
      pose proof (Z.mod_pos_bound v k ltac:(lia)).
      destruct (Z.testbit v (Z.of_nat n)); cbn [Z.b2z] in Hb; rewrite <- Hb.
      * destruct (Z.eqb_spec (v mod k + k * 1) 0); [lia | reflexivity].
      * rewrite Z.mul_0_r, Z.add_0_r. reflexivity.
Qed.

(** In the normal range the exponent of a value of [d] bits at exponent [e]
    is [d + e - 53]. *)
Lemma fexp_normal (d e : Z) :
  -1074 <= d + e - 53 -> fexp prec emax (d + e) = d + e - 53.
Proof. intro H. unfold fexp, emin, prec, emax. lia. Qed.

Lemma shr_fexp_shift (m : positive) (k e : Z) (l : location) :
  Zpos (digits2_pos m) = 53 + k -> -1074 <= e + k ->
  shr_fexp prec emax (Zpos m) e l = shr (shr_record_of_loc (Zpos m) l) e k.
Proof.
  intros Hd He. unfold shr_fexp. cbn [Zdigits2]. rewrite Hd.
  rewrite fexp_normal by lia. f_equal. lia.
Qed.

Lemma loc_of_shr_record_of_loc (m : Z) (l : location) :
  loc_of_shr_record (shr_record_of_loc m l) = l.
Proof. destruct l as [ | [ | | ] ]; reflexivity. Qed.

Lemma shr_m_record_of_loc (m : Z) (l : location) :
  shr_m (shr_record_of_loc m l) = m.
Proof. destruct l as [ | [ | | ] ]; reflexivity. Qed.

Lemma round_nearest_even_range (m : Z) (l : location) :
  m <= round_nearest_even m l <= m + 1.
Proof.
  destruct l as [ | [ | | ] ]; cbn [round_nearest_even]; try lia.
  destruct (Z.even m); lia.
Qed.

(** The second pass of [binary_round_aux]: a rounded mantissa in
    [[2^52, 2^53]] is final unless it is [2^53], which carries. *)
Lemma finish_round (sx : bool) (m e : Z) :
  2 ^ 52 <= m <= 2 ^ 53 -> -1074 <= e <= 970 ->
  (let '(mrs, e') := shr_fexp prec emax m e loc_Exact in
   match shr_m mrs with
   | Z0 => S754_zero sx
   | Zpos p => if e' <=? emax - prec then S754_finite sx p e' else S754_infinity sx
   | Zneg _ => S754_nan
   end) = normalize_carry sx m e.
Proof.
  intros Hm He. unfold normalize_carry.
  destruct (Z.eqb_spec m (2 ^ 53)) as [-> | Hne].
  - change (2 ^ 53) with (Zpos (Z.to_pos (2 ^ 53))).
    rewrite (shr_fexp_shift _ 1) by (try reflexivity; lia).
    cbn [shr iter_pos shr_record_of_loc].
    cbn -[Z.leb Z.add]. 
    replace (e + 1 <=? emax - prec) with true; [reflexivity | ].
    symmetry. apply Z.leb_le. unfold emax, prec. lia.
  - destruct m as [ | p | p ]; try (cbn in Hm; lia).
    rewrite (shr_fexp_shift _ 0).
    + cbn [shr shr_record_of_loc shr_m].
      replace (e <=? emax - prec) with true; [reflexivity | ].
      symmetry. apply Z.leb_le. unfold emax, prec. lia.
    + apply digits2_pos_unique. change (53 + 0 - 1) with 52. change (53 + 0) with 53. lia.
    + lia.
Qed.

Lemma shr_iter_m (n : nat) (mrs : shr_record) :
  0 <= shr_m mrs ->
  shr_m (Nat.iter n shr_1 mrs) = shr_m mrs / 2 ^ Z.of_nat n.
Proof.
  intro Hm. induction n as [ | n IH ].
  - cbn. symmetry. apply Z.div_1_r.
  - rewrite Nat.iter_succ.
    destruct (Nat.iter n shr_1 mrs) as [m' r' s'] eqn:E. cbn [shr_m] in IH.
    assert (0 <= m') by (rewrite IH; apply Z.div_pos; lia).
    rewrite shr_1_value by assumption. cbn [shr_m].
    rewrite IH, Z.div_div by lia. f_equal.
    rewrite Nat2Z.inj_succ, Z.pow_succ_r by lia. lia.
Qed.

Lemma shr_snd (mrs : shr_record) (e k : Z) :
  0 <= k -> snd (shr mrs e k) = e + k.
Proof. intro Hk. destruct k; cbn [shr snd]; lia. Qed.

Lemma shr_fst_m (mrs : shr_record) (e k : Z) :
  0 <= k -> 0 <= shr_m mrs ->
  shr_m (fst (shr mrs e k)) = shr_m mrs / 2 ^ k.
Proof.
  intros Hk Hm. destruct k as [ | p | p ]; [ | | lia ]; cbn [shr fst].
  - symmetry. apply Z.div_1_r.
  - rewrite iter_pos_nat, shr_iter_m, positive_nat_Z by assumption. reflexivity.
Qed.

Lemma digits2_pos_quotient (m : positive) (k : Z) :
  Zpos (digits2_pos m) = 53 + k -> 0 <= k ->
  2 ^ 52 <= Zpos m / 2 ^ k < 2 ^ 53.
Proof.
  intros Hd Hk. pose proof (digits2_pos_bounds m) as [Hlo Hhi].
  rewrite Hd in Hlo, Hhi.
  replace (53 + k - 1) with (52 + k) in Hlo by lia.
  rewrite Z.pow_add_r in Hlo, Hhi by lia.
  assert (0 < 2 ^ k) by (apply Z.pow_pos_nonneg; lia).
  split.
  - apply Z.div_le_lower_bound; lia.
  - apply Z.div_lt_upper_bound; lia.
Qed.

(** Rounding a mantissa of [53 + k] bits: shift right by [k], round to
    nearest even, carry. *)
Lemma binary_round_aux_shift (sx : bool) (m : positive) (k e : Z) (l : location) :
  Zpos (digits2_pos m) = 53 + k -> 0 <= k -> -1074 <= e -> e + k <= 970 ->
  binary_round_aux prec emax sx (Zpos m) e l =
  let mrs := fst (shr (shr_record_of_loc (Zpos m) l) e k) in
  normalize_carry sx (round_nearest_even (shr_m mrs) (loc_of_shr_record mrs)) (e + k).
Proof.
  intros Hd Hk He Hek. unfold binary_round_aux.
  rewrite (shr_fexp_shift m k) by (assumption || lia).
  pose proof (shr_snd (shr_record_of_loc (Zpos m) l) e k Hk) as Hsnd.
  pose proof (shr_fst_m (shr_record_of_loc (Zpos m) l) e k Hk) as Hfst.
  rewrite shr_m_record_of_loc in Hfst. specialize (Hfst ltac:(lia)).
  destruct (shr (shr_record_of_loc (Zpos m) l) e k) as [mrs e'].
  cbn [fst snd] in *. subst e'.
  pose proof (digits2_pos_quotient m k Hd Hk) as Hq. rewrite <- Hfst in Hq.
  pose proof (round_nearest_even_range (shr_m mrs) (loc_of_shr_record mrs)) as Hr.
  apply finish_round; lia.
Qed.

Lemma shl_align_below (mx : positive) (ex ex' : Z) :
  ex' < ex ->
  snd (shl_align mx ex ex') = ex' /\
  Zpos (fst (shl_align mx ex ex')) = Zpos mx * 2 ^ (ex - ex').
Proof.
  intro H. unfold shl_align.
  destruct (ex' - ex) as [ | d | d ] eqn:E; try lia.
  cbn [fst snd]. split; [reflexivity | ].
  rewrite iter_xO_value. f_equal. f_equal. lia.
Qed.

Lemma shl_align_above (mx : positive) (ex ex' : Z) :
  ex <= ex' -> shl_align mx ex ex' = (mx, ex).
Proof.
  intro H. unfold shl_align.
  destruct (ex' - ex) as [ | d | d ] eqn:E; try reflexivity; lia.
Qed.

Lemma norm53_spec (p : positive) :
  Zpos p < 2 ^ 53 ->
  Zpos (digits2_pos (fst (norm53 p))) = 53 /\
  -52 <= snd (norm53 p) <= 0 /\
  Zpos (fst (norm53 p)) = Zpos p * 2 ^ (- snd (norm53 p)).
Proof.
  intro Hp. unfold norm53.
  pose proof (digits2_pos_bounds p) as [Hlo Hhi].
  set (d := Zpos (digits2_pos p)) in *.
  assert (0 < d) by (unfold d; lia).
  assert (d <= 53).
  { destruct (Z.le_gt_cases d 53); [assumption | ].
    assert (2 ^ 53 <= 2 ^ (d - 1)) by (apply Z.pow_le_mono_r; lia). lia. }
  destruct (Z.eq_dec d 53) as [E | E].
  - rewrite shl_align_above by lia. cbn [fst snd]. fold d.
    repeat split; lia.
  - destruct (shl_align_below p 0 (d - 53) ltac:(lia)) as [He Hm].
    rewrite He, Hm. replace (0 - (d - 53)) with (53 - d) by lia.
    replace (- (d - 53)) with (53 - d) by lia.
    repeat split; try lia.
    apply digits2_pos_unique. rewrite Hm.
    replace (0 - (d - 53)) with (53 - d) by lia.
    assert (E1 : 2 ^ (53 - 1) = 2 ^ (d - 1) * 2 ^ (53 - d))
      by (rewrite <- Z.pow_add_r by lia; f_equal; lia).
    assert (E2 : 2 ^ 53 = 2 ^ d * 2 ^ (53 - d))
      by (rewrite <- Z.pow_add_r by lia; f_equal; lia).
    assert (0 < 2 ^ (53 - d)) by (apply Z.pow_pos_nonneg; lia).
    rewrite E1, E2.
    split; [apply Z.mul_le_mono_nonneg_r | apply Z.mul_lt_mono_pos_r]; lia.
Qed.

Lemma normalize_carry_below (sx : bool) (m : positive) (e : Z) :
  Zpos m < 2 ^ 53 -> normalize_carry sx (Zpos m) e = S754_finite sx m e.
Proof.
  intro H. unfold normalize_carry.
  destruct (Z.eqb_spec (Zpos m) (2 ^ 53)); [lia | reflexivity].
Qed.

(** Integers below [2^53] convert exactly. *)
Lemma binary_normalize_int (p : positive) :
  Zpos p < 2 ^ 53 ->
  binary_normalize prec emax (Zpos p) 0 false =
  S754_finite false (fst (norm53 p)) (snd (norm53 p)).
Proof.
  intro Hp. pose proof (norm53_spec p Hp) as (Hd & He & Hv).
  pose proof (digits2_pos_bounds (fst (norm53 p))) as [_ Hhi]. rewrite Hd in Hhi.
  cbn [binary_normalize]. unfold binary_round.
  replace (fexp prec emax (Zpos (digits2_pos p) + 0)) with (Zpos (digits2_pos p) - 53).
  2:{ rewrite fexp_normal; [lia | ]. pose proof (Pos2Z.is_pos (digits2_pos p)). lia. }
  fold (norm53 p). destruct (norm53 p) as [mz ez]. cbn [fst snd] in *.
  rewrite (binary_round_aux_shift false mz 0 ez) by lia.
  cbn [shr fst]. rewrite shr_m_record_of_loc, loc_of_shr_record_of_loc.
  cbn [round_nearest_even]. rewrite Z.add_0_r.
  apply normalize_carry_below. assumption.
Qed.

(** [k] right shifts of an exact value. *)
Lemma shr_exact (v e : Z) (k : positive) :
  0 <= v ->
  fst (shr (Build_shr_record v false false) e (Zpos k)) =
  Build_shr_record (v / 2 ^ Zpos k) (Z.testbit v (Zpos k - 1))
                   (negb (v mod 2 ^ (Zpos k - 1) =? 0)).
Proof.
  intro Hv. cbn [shr fst]. rewrite iter_pos_nat.
  destruct (Pos2Nat.is_succ k) as [n Hn]. rewrite Hn.
  rewrite shr_iter_value by assumption.
  assert (Zpos k = Z.of_nat (S n)) by (rewrite <- Hn; symmetry; apply positive_nat_Z).
  replace (Zpos k - 1) with (Z.of_nat n) by lia.
  replace (Zpos k) with (Z.of_nat (S n)) by lia.
  reflexivity.
Qed.

Lemma eps_mantissa_bound : 0 < Zpos 6646139978924579 < 2 ^ 53.
Proof. split; reflexivity. Qed.

(** Adding [1e-20] to a binary64 value in [[1, 2^53)] changes nothing: the
    addend lies entirely below the round bit. *)
Lemma fadd_eps_absorbed (m : positive) (e : Z) :
  Zpos (digits2_pos m) = 53 -> -52 <= e <= 0 ->
  fadd (S754_finite false m e) eps = S754_finite false m e.
Proof.
  intros Hd He. unfold fadd, eps, SFadd.
  rewrite Z.min_r by lia.
  destruct (shl_align_below m e (-119) ltac:(lia)) as [_ Ha].
  rewrite (shl_align_above 6646139978924579 (-119) (-119)) by lia.
  cbn [fst cond_Zopp].
  set (a := fst (shl_align m e (-119))) in *.
  set (b := 6646139978924579%positive).
  pose proof eps_mantissa_bound as Hb. fold b in Hb.
  change (Zpos a + Zpos b) with (Zpos (a + b)).
  cbn [binary_normalize]. unfold binary_round.
  set (k := e + 119).
  assert (Hk : 67 <= k <= 119) by (unfold k; lia).
  replace (e - -119) with k in Ha by (unfold k; lia).
  assert (HM : Zpos (a + b) = Zpos m * 2 ^ k + Zpos b) by (rewrite Pos2Z.inj_add, Ha; reflexivity).
  pose proof (digits2_pos_bounds m) as [Hmlo Hmhi]. rewrite Hd in Hmlo, Hmhi.
  change (53 - 1) with 52 in Hmlo.
  assert (Hpk : 2 ^ k = 2 * 2 ^ (k - 1)).
  { rewrite <- Z.pow_succ_r by lia. f_equal. lia. }
  assert (Hbk : 2 ^ 53 <= 2 ^ (k - 1)) by (apply Z.pow_le_mono_r; lia).
  assert (HdM : Zpos (digits2_pos (a + b)) = 53 + k).
  { apply digits2_pos_unique. rewrite HM.
    replace (53 + k - 1) with (52 + k) by lia.
    rewrite !Z.pow_add_r by lia. nia. }
  rewrite HdM.
  replace (53 + k + -119) with (53 + e) by (unfold k; lia).
  rewrite fexp_normal by lia.
  rewrite shl_align_above by lia.
  rewrite (binary_round_aux_shift false (a + b) k (-119)) by lia.
  cbn [shr_record_of_loc].
  destruct k as [ | kp | kp ] eqn:Ek; try lia.
  rewrite shr_exact by lia. rewrite <- Ek in *. cbv zeta. cbn [shr_m loc_of_shr_record].
  assert (Hq : Zpos (a + b) / 2 ^ k = Zpos m).
  { symmetry. apply Z.div_unique with (Zpos b); lia. }
  assert (Hr : Z.testbit (Zpos (a + b)) (k - 1) = false).
  { apply Z.testbit_false; [lia | ].
    replace (Zpos (a + b) / 2 ^ (k - 1)) with (2 * Zpos m).
    - rewrite Z.mul_comm. apply Z.mod_mul. lia.
    - apply Z.div_unique with (Zpos b); lia. }
  assert (Hs : Zpos (a + b) mod 2 ^ (k - 1) = Zpos b).
  { symmetry. apply Z.mod_unique with (2 * Zpos m); lia. }
  rewrite Hq, Hr, Hs. cbn [Z.eqb negb round_nearest_even].
  replace (-119 + k) with e by (unfold k in Ek |- *; lia).
  apply normalize_carry_below. assumption.
Qed.

(** The integer quotient of two 53-bit mantissas, the dividend shifted by 53
    bits, has 53 or 54 bits. *)
Lemma fdiv_quotient_bounds (m1 m2 : positive) :
  Zpos (digits2_pos m1) = 53 -> Zpos (digits2_pos m2) = 53 ->
  2 ^ 52 <= Zpos m1 * 2 ^ 53 / Zpos m2 < 2 ^ 54.
Proof.
  intros H1 H2.
  pose proof (digits2_pos_bounds m1) as [L1 U1]. rewrite H1 in L1, U1.
  pose proof (digits2_pos_bounds m2) as [L2 U2]. rewrite H2 in L2, U2.
  change (53 - 1) with 52 in *.
  change (2 ^ 54) with (4 * 2 ^ 52). change (2 ^ 53) with (2 * 2 ^ 52) in *.
  set (B := 2 ^ 52) in *. assert (0 < B) by reflexivity.
  split.
  - apply Z.div_le_lower_bound; nia.
  - apply Z.div_lt_upper_bound; nia.
Qed.

(** Division of two normal values: the integer quotient with its location,
    rounded at 53 or 54 bits. *)
Lemma fdiv_finite (s1 s2 : bool) (m1 m2 : positive) (e1 e2 : Z) :
  Zpos (digits2_pos m1) = 53 -> Zpos (digits2_pos m2) = 53 ->
  -1021 <= e1 - e2 <= 1021 ->
  fdiv (S754_finite s1 m1 e1) (S754_finite s2 m2 e2) =
  let q := Zpos m1 * 2 ^ 53 / Zpos m2 in
  let l := new_location (Zpos m2) (Zpos m1 * 2 ^ 53 mod Zpos m2) in
  if q <? 2 ^ 53
  then normalize_carry (xorb s1 s2) (round_nearest_even q l) (e1 - e2 - 53)
  else
    let mrs := shr_1 (shr_record_of_loc q l) in
    normalize_carry (xorb s1 s2)
      (round_nearest_even (shr_m mrs) (loc_of_shr_record mrs)) (e1 - e2 - 52).
Proof.
  intros H1 H2 He.
  pose proof (fdiv_quotient_bounds m1 m2 H1 H2) as Hq.
  unfold fdiv, SFdiv, SFdiv_core_binary. cbn [Zdigits2]. rewrite H1, H2.
  replace (53 + e1 - (53 + e2)) with (53 + (e1 - e2 - 53)) by lia.
  rewrite fexp_normal by lia.
  replace (53 + (e1 - e2 - 53) - 53) with (e1 - e2 - 53) by lia.
  rewrite Z.min_l by lia.
  replace (e1 - e2 - (e1 - e2 - 53)) with 53 by lia.
  rewrite Z.shiftl_mul_pow2 by lia.
  unfold Z.div, Z.modulo in *.
  destruct (Z.div_eucl (Zpos m1 * 2 ^ 53) (Zpos m2)) as [q r]. cbn [fst snd] in *.
  cbv zeta.
  destruct q as [ | q | q ]; try (cbn in Hq; lia).
  destruct (Z.ltb_spec (Zpos q) (2 ^ 53)) as [Hlt | Hge].
  - rewrite (binary_round_aux_shift _ q 0) by
      (try (apply digits2_pos_unique; change (53 + 0 - 1) with 52; change (53 + 0) with 53); lia).
    cbn [shr fst]. rewrite shr_m_record_of_loc, loc_of_shr_record_of_loc.
    f_equal. lia.
  - rewrite (binary_round_aux_shift _ q 1) by
      (try (apply digits2_pos_unique; change (53 + 1 - 1) with 53; change (53 + 1) with 54); lia).
    cbn [shr fst iter_pos]. f_equal. lia.
Qed.

Lemma new_location_zero (n : Z) : new_location n 0 = loc_Exact.
Proof. unfold new_location. destruct (Z.even n); reflexivity. Qed.

(** [x / x = 1.0] *)
Lemma fdiv_self (m : positive) (e : Z) :
  Zpos (digits2_pos m) = 53 ->
  fdiv (S754_finite false m e) (S754_finite false m e) = one.
Proof.
  intro Hd. rewrite fdiv_finite by (assumption || lia).
  rewrite Z.mul_comm, Z.div_mul, Z.mod_mul by lia.
  rewrite new_location_zero.
  replace (e - e - 52) with (-52) by lia.
  reflexivity.
Qed.

Lemma shr_1_of_loc (q : Z) (l : location) :
  0 <= q -> shr_m (shr_1 (shr_record_of_loc q l)) = q / 2.
Proof.
  intro Hq. destruct l as [ | [ | | ] ]; cbn [shr_record_of_loc];
    rewrite shr_1_value by assumption; reflexivity.
Qed.

(** The quotient of two positive normal values [x <= y] is a normal value
    that is at most 1, and is 1 only when [x = y]. *)
Lemma fdiv_pos_shape (m1 m2 : positive) (e1 e2 : Z) :
  Zpos (digits2_pos m1) = 53 -> Zpos (digits2_pos m2) = 53 ->
  -1021 <= e1 - e2 <= 0 -> (e1 = e2 -> Zpos m1 <= Zpos m2) ->
  exists (m : positive) (e : Z),
    fdiv (S754_finite false m1 e1) (S754_finite false m2 e2) = S754_finite false m e /\
    2 ^ 52 <= Zpos m < 2 ^ 53 /\
    (e <= -53 \/ (e = -52 /\ Zpos m = 2 ^ 52 /\ e1 = e2 /\ m1 = m2)).
Proof.
  intros H1 H2 He Hle.
  destruct (Z.eq_dec e1 e2) as [Ee | Ee];
    [ destruct (Pos.eq_dec m1 m2) as [Em | Em] | ].
  { subst e2 m2. rewrite fdiv_self by assumption.
    exists (Z.to_pos (2 ^ 52)), (-52). split; [reflexivity | ].
    split; [split; reflexivity | ]. right. repeat split; reflexivity. }
  all: pose proof (fdiv_quotient_bounds m1 m2 H1 H2) as Hq;
       pose proof (digits2_pos_bounds m1) as [L1 U1]; rewrite H1 in L1, U1;
       pose proof (digits2_pos_bounds m2) as [L2 U2]; rewrite H2 in L2, U2;
       change (53 - 1) with 52 in *;
       pose proof (Z.div_mod (Zpos m1 * 2 ^ 53) (Zpos m2) ltac:(lia)) as Hdm;
       pose proof (Z.mod_pos_bound (Zpos m1 * 2 ^ 53) (Zpos m2) ltac:(lia)) as Hmod;
       rewrite fdiv_finite by (assumption || lia); cbv zeta; cbn [xorb];
       set (q := Zpos m1 * 2 ^ 53 / Zpos m2) in *;
       set (r := Zpos m1 * 2 ^ 53 mod Zpos m2) in *;
       set (l := new_location (Zpos m2) r).
  - (* same exponent, smaller mantissa *)
    specialize (Hle Ee). assert (Hlt : Zpos m1 < Zpos m2).
    { assert (Zpos m1 <> Zpos m2) by (intro E; apply Em; injection E; auto). lia. }
    assert (Hq2 : q <= 2 ^ 53 - 2).
    { change (2 ^ 53) with (2 * 2 ^ 52) in *. set (B := 2 ^ 52) in *.
      assert (0 < B) by reflexivity. nia. }
    destruct (Z.ltb_spec q (2 ^ 53)) as [_ | Hge]; [ | lia].
    pose proof (round_nearest_even_range q l) as Hr.
    set (m' := round_nearest_even q l) in *.
    unfold normalize_carry. destruct (Z.eqb_spec m' (2 ^ 53)) as [E | _]; [lia | ].
    exists (Z.to_pos m'), (e1 - e2 - 53).
    rewrite Z2Pos.id by lia. split; [reflexivity | ]. split; [lia | left; lia].
  - (* smaller exponent *)
    assert (Hd : e1 - e2 <= -1) by lia.
    destruct (Z.ltb_spec q (2 ^ 53)) as [Hlt | Hge].
    + pose proof (round_nearest_even_range q l) as Hr.
      set (m' := round_nearest_even q l) in *.
      unfold normalize_carry. destruct (Z.eqb_spec m' (2 ^ 53)) as [E | Ne].
      * exists (Z.to_pos (2 ^ 52)), (e1 - e2 - 53 + 1).
        split; [reflexivity | ]. split; [split; reflexivity | left; lia].
      * exists (Z.to_pos m'), (e1 - e2 - 53).
        rewrite Z2Pos.id by lia. split; [reflexivity | ]. split; [lia | left; lia].
    + pose proof (shr_1_of_loc q l ltac:(lia)) as Hm.
      set (mrs := shr_1 (shr_record_of_loc q l)) in *.
      pose proof (round_nearest_even_range (shr_m mrs) (loc_of_shr_record mrs)) as Hr.
      set (m' := round_nearest_even (shr_m mrs) (loc_of_shr_record mrs)) in *.
      rewrite Hm in Hr.
      assert (Hh : 2 ^ 52 <= q / 2 < 2 ^ 53).
      { split; [apply Z.div_le_lower_bound | apply Z.div_lt_upper_bound]; lia. }
      unfold normalize_carry. destruct (Z.eqb_spec m' (2 ^ 53)) as [E | Ne].
      * destruct (Z.eq_dec (e1 - e2) (-1)) as [D1 | D1].
        -- exfalso.
           assert (Hq3 : 2 ^ 54 - 2 <= q).
           { assert (2 ^ 53 - 1 <= q / 2) by lia.
             pose proof (Z.div_mod q 2 ltac:(lia)).
             pose proof (Z.mod_pos_bound q 2 ltac:(lia)).
             change (2 ^ 54) with (2 * 2 ^ 53). lia. }
           assert (Hex : Zpos m2 = 2 ^ 52 /\ r = 0 /\ q = 2 ^ 54 - 2).
           { change (2 ^ 54) with (4 * 2 ^ 52) in *.
             change (2 ^ 53) with (2 * 2 ^ 52) in *. set (B := 2 ^ 52) in *.
             assert (0 < B) by reflexivity.
             assert (Zpos m2 <= B) by nia.
             assert (Zpos m2 = B) by lia.
             assert (q <= 4 * B - 2) by nia.
             repeat split; nia. }
           destruct Hex as (Em2 & Er & Eq).
           unfold m', mrs, l in E. rewrite Er, Eq, new_location_zero in E.
           vm_compute in E. discriminate E.
        -- exists (Z.to_pos (2 ^ 52)), (e1 - e2 - 52 + 1).
           split; [reflexivity | ]. split; [split; reflexivity | left; lia].
      * exists (Z.to_pos m'), (e1 - e2 - 52).
        rewrite Z2Pos.id by lia. split; [reflexivity | ]. split; [lia | left; lia].
Qed.

Lemma float_of_int_pos (p : positive) :
  Zpos p < 2 ^ 53 ->
  float_of_int (Zpos p) = Ok (S754_finite false (fst (norm53 p)) (snd (norm53 p))).
Proof.
  intro Hp. unfold float_of_int. rewrite binary_normalize_int by assumption.
  reflexivity.
Qed.

(** The normal form is monotone, and injective. *)
Lemma norm53_monotone (p p' : positive) :
  Zpos p <= Zpos p' -> Zpos p' < 2 ^ 53 ->
  snd (norm53 p) <= snd (norm53 p') /\
  (snd (norm53 p) = snd (norm53 p') ->
   Zpos (fst (norm53 p)) <= Zpos (fst (norm53 p')) /\
   (fst (norm53 p) = fst (norm53 p') -> p = p')).
Proof.
  intros Hle Hp'.
  pose proof (norm53_spec p ltac:(lia)) as (D1 & E1 & V1).
  pose proof (norm53_spec p' Hp') as (D2 & E2 & V2).
  pose proof (digits2_pos_bounds (fst (norm53 p))) as [L1 U1]. rewrite D1 in L1, U1.
  pose proof (digits2_pos_bounds (fst (norm53 p'))) as [L2 U2]. rewrite D2 in L2, U2.
  destruct (norm53 p) as [m1 e1], (norm53 p') as [m2 e2]. cbn [fst snd] in *.
  change (53 - 1) with 52 in *. change (2 ^ 53) with (2 * 2 ^ 52) in *.
  assert (0 < 2 ^ (- e1)) by (apply Z.pow_pos_nonneg; lia).
  split.
  - destruct (Z.le_gt_cases e1 e2) as [ | Hgt]; [assumption | exfalso].
    assert (E : 2 ^ (- e2) = 2 ^ (- e1) * 2 ^ (e1 - e2))
      by (rewrite <- Z.pow_add_r by lia; f_equal; lia).
    assert (2 ^ 1 <= 2 ^ (e1 - e2)) by (apply Z.pow_le_mono_r; lia).
    change (2 ^ 1) with 2 in *. rewrite E in V2. nia.
  - intros <-. split; [nia | ].
    intro Em. subst m2. apply Pos2Z.inj. nia.
Qed.

(** The quotient [num / (num + other + 1e-20)] of the source on
    non-negative counts: never an error; 0, 1, or strictly in between. *)
Lemma rate_spec (num other : Z) :
  0 <= num -> 0 <= other -> num + other < 2 ^ 53 ->
  exists r : float,
    rate num other = Ok r /\
    (num = 0 -> r = pos_zero) /\
    (0 < num -> other = 0 -> r = one) /\
    (0 < num -> 0 < other -> flt pos_zero r = true /\ flt r one = true).
Proof.
  intros Hn Ho Hs. unfold rate.
  destruct num as [ | n | n ]; [ | | lia].
  - (* numerator 0 *)
    destruct other as [ | o | o ]; [ | | lia].
    + exists pos_zero. repeat split; (reflexivity || lia).
    + exists pos_zero. cbn [Z.add]. rewrite float_of_int_pos by lia.
      pose proof (norm53_spec o ltac:(lia)) as (D & E & _).
      cbn [bind]. change (float_of_int 0) with (Ok pos_zero). cbn [bind].
      rewrite fadd_eps_absorbed by assumption.
      repeat split; (reflexivity || lia).
  - destruct other as [ | o | o ]; [ | | lia].
    + exists one. rewrite Z.add_0_r, float_of_int_pos by lia. cbn [bind].
      pose proof (norm53_spec n ltac:(lia)) as (D & E & _).
      rewrite fadd_eps_absorbed by assumption.
      unfold truediv. cbn [is_zero]. rewrite fdiv_self by assumption.
      repeat split; (reflexivity || lia).
    + change (Zpos n + Zpos o) with (Zpos (n + o)) in *.
      rewrite !float_of_int_pos by lia. cbn [bind].
      pose proof (norm53_spec n ltac:(lia)) as (D1 & E1 & _).
      pose proof (norm53_spec (n + o) ltac:(lia)) as (D2 & E2 & _).
      pose proof (norm53_monotone n (n + o) ltac:(lia) Hs) as (Hexp & Hman).
      rewrite fadd_eps_absorbed by assumption.
      unfold truediv. cbn [is_zero].
      destruct (fdiv_pos_shape (fst (norm53 n)) (fst (norm53 (n + o)))
                  (snd (norm53 n)) (snd (norm53 (n + o))) D1 D2 ltac:(lia)
                  ltac:(intro E; apply (Hman E))) as (m & e & Hdiv & Hm & Hcase).
      exists (S754_finite false m e). split; [rewrite Hdiv; reflexivity | ].
      split; [lia | ]. split; [lia | ]. intros _ _.
      destruct Hcase as [He | (_ & _ & Ee & Em)].
      * split; [reflexivity | ].
        unfold flt, SFltb, one. cbn [SFcompare].
        destruct (Z.compare_spec e (-52)); (reflexivity || lia).
      * exfalso. destruct (Hman Ee) as [_ Hinj]. specialize (Hinj Em). lia.
Qed.

(** * Facts about the counting loop *)

Lemma index_ok_cases (a : Z) : index_ok a -> a = -2 \/ a = -1 \/ a = 0 \/ a = 1.
Proof. unfold index_ok. lia. Qed.

(** [confusion_matrix[actual][predicted] += 1] on a 2x2 matrix. *)
Lemma incr_cell_spec (tn fp fn tp a p : Z) :
  index_ok a -> is_bit p ->
  incr_cell [[tn; fp]; [fn; tp]] a p =
  Ok [[tn + count_cell 0 0 [(a, p)]; fp + count_cell 0 1 [(a, p)]];
      [fn + count_cell 1 0 [(a, p)]; tp + count_cell 1 1 [(a, p)]]].
Proof.
  intros Ha Hp.
  destruct (index_ok_cases a Ha) as [-> | [-> | [-> | ->]]];
    destruct Hp as [-> | ->]; cbn; rewrite ?Z.add_0_r; reflexivity.
Qed.

(** A row index outside [[-2, 2)] raises. *)
Lemma incr_cell_out_of_range (cm : matrix) (a p : Z) :
  length cm = 2%nat -> ~ index_ok a -> incr_cell cm a p = Raise IndexError.
Proof.
  intros Hlen Ha. unfold incr_cell, getitem, norm_index. rewrite Hlen.
  unfold index_ok in Ha.
  destruct (Z.leb_spec 0 a), (Z.ltb_spec a (Z.of_nat 2)),
    (Z.leb_spec (- Z.of_nat 2) a), (Z.ltb_spec a 0); cbn; try reflexivity; lia.
Qed.

(** The loop adds to each cell the number of pairs that select it. *)
Lemma count_loop_spec (pairs : list (Z * Z)) :
  Forall pair_ok pairs ->
  forall tn fp fn tp : Z,
    count_loop [[tn; fp]; [fn; tp]] pairs =
    Ok [[tn + count_cell 0 0 pairs; fp + count_cell 0 1 pairs];
        [fn + count_cell 1 0 pairs; tp + count_cell 1 1 pairs]].
Proof.
  induction 1 as [ | [a p] rest [Ha Hp] _ IH ]; intros tn fp fn tp.
  - cbn. rewrite !Z.add_0_r. reflexivity.
  - cbn [count_loop]. cbn [fst snd] in Ha, Hp.
    rewrite incr_cell_spec by assumption. cbn [bind].
    rewrite IH. cbn [count_cell]. rewrite !Z.add_0_r, !Z.add_assoc. reflexivity.
Qed.

Lemma count_cell_nonneg (row col : Z) (pairs : list (Z * Z)) :
  0 <= count_cell row col pairs.
Proof.
  induction pairs as [ | [a p] rest IH ]; cbn [count_cell]; [lia | ].
  destruct ((a mod 2 =? row) && (p =? col)); lia.
Qed.

Lemma count_cell_total (pairs : list (Z * Z)) :
  Forall pair_ok pairs ->
  count_cell 0 0 pairs + count_cell 0 1 pairs
  + count_cell 1 0 pairs + count_cell 1 1 pairs = Z.of_nat (length pairs).
Proof.
  induction 1 as [ | [a p] rest [Ha Hp] _ IH ]; [reflexivity | ].
  cbn [fst snd] in Ha, Hp. cbn [count_cell length]. rewrite Nat2Z.inj_succ.
  destruct (index_ok_cases a Ha) as [-> | [-> | [-> | ->]]];
    destruct Hp as [-> | ->];
    repeat match goal with
           | |- context [if ?b then _ else _] =>
               let v := eval vm_compute in b in change b with v; cbv iota
           end; lia.
Qed.

(** The loop raises as soon as some pair has an invalid row index. *)
Lemma count_loop_raises (pairs : list (Z * Z)) :
  Forall (fun ap => is_bit (snd ap)) pairs ->
  Exists (fun ap => ~ index_ok (fst ap)) pairs ->
  forall tn fp fn tp : Z,
    count_loop [[tn; fp]; [fn; tp]] pairs = Raise IndexError.
Proof.
  induction 1 as [ | [a p] rest Hp Hrest IH ]; intros Hex tn fp fn tp.
  - inversion Hex.
  - cbn [count_loop]. cbn [snd] in Hp.
    destruct (Z_le_dec (-2) a) as [Hlo | Hlo];
      [ destruct (Z_lt_dec a 2) as [Hhi | Hhi] | ].
    + rewrite incr_cell_spec by (assumption || (unfold index_ok; lia)). cbn [bind].
      apply IH. inversion Hex as [? ? Hbad | ]; subst; [ | assumption ].
      exfalso. apply Hbad. cbn. unfold index_ok. lia.
    + rewrite incr_cell_out_of_range; [reflexivity | reflexivity | unfold index_ok; lia].
    + rewrite incr_cell_out_of_range; [reflexivity | reflexivity | unfold index_ok; lia].
Qed.

Lemma predictions_bits (probabilities : list float) (t : float) :
  Forall is_bit (predictions probabilities t).
Proof.
  unfold predictions. apply Forall_map, Forall_forall. intros p _.
  destruct (fge p t); [right | left]; reflexivity.
Qed.

Lemma predictions_length (probabilities : list float) (t : float) :
  length (predictions probabilities t) = length probabilities.
Proof. apply length_map. Qed.

Lemma combine_pair_ok (labels preds : list Z) :
  Forall index_ok labels -> Forall is_bit preds ->
  Forall pair_ok (combine labels preds).
Proof.
  intros Hl. revert preds. induction Hl as [ | l ls Hl _ IH ]; intros preds Hp.
  - constructor.
  - destruct Hp as [ | p ps Hp Hps ]; cbn [combine]; constructor.
    + split; assumption.
    + apply IH. assumption.
Qed.

Lemma is_bit_index_ok (l : Z) : is_bit l -> index_ok l.
Proof. unfold is_bit, index_ok. lia. Qed.

(** The matrix of the loop, cell by cell, and its total: [zip] stops at the
    shorter input. *)
Lemma confusion_loop_spec (scores : list float) (labels : list Z) (t : float) :
  Forall index_ok labels ->
  let pairs := combine labels (predictions scores t) in
  confusion_loop scores labels t =
  Ok [[count_cell 0 0 pairs; count_cell 0 1 pairs];
      [count_cell 1 0 pairs; count_cell 1 1 pairs]] /\
  count_cell 0 0 pairs + count_cell 0 1 pairs
  + count_cell 1 0 pairs + count_cell 1 1 pairs
  = Z.of_nat (Nat.min (length labels) (length scores)).
Proof.
  intros Hl pairs.
  assert (Hok : Forall pair_ok pairs)
    by (apply combine_pair_ok; [assumption | apply predictions_bits]).
  split.
  - unfold confusion_loop, zero_matrix. fold pairs.
    rewrite count_loop_spec by assumption. reflexivity.
  - rewrite count_cell_total by assumption.
    unfold pairs. rewrite length_combine, predictions_length. reflexivity.
Qed.

(** The quotient in closed form: both conversions succeed and the divisor
    is not zero. *)
Lemma rate_formula (num other : Z) :
  0 <= num -> 0 <= other -> num + other < 2 ^ 53 ->
  rate num other = Ok (fdiv (of_Z num) (fadd (of_Z (num + other)) eps)).
Proof.
  intros Hn Ho Hs. unfold rate, of_Z.
  assert (Hconv : forall z, 0 <= z < 2 ^ 53 ->
            float_of_int z = Ok (binary_normalize prec emax z 0 false) /\
            is_zero (fadd (binary_normalize prec emax z 0 false) eps) = false).
  { intros z Hz. destruct z as [ | p | p ]; [split; reflexivity | | lia].
    pose proof (norm53_spec p ltac:(lia)) as (D & E & _).
    unfold float_of_int. rewrite binary_normalize_int by lia.
    rewrite fadd_eps_absorbed by assumption. split; reflexivity. }
  destruct (Hconv (num + other) ltac:(lia)) as [-> Hnz].
  destruct (Hconv num ltac:(lia)) as [-> _].
  cbn [bind]. unfold truediv. rewrite Hnz. reflexivity.
Qed.

Lemma rates_cells (tn fp fn tp : Z) :
  rates [[tn; fp]; [fn; tp]] =
  bind (rate tp fn) (fun tpr => bind (rate fp tn) (fun fpr => Ok (tpr, fpr))).
Proof. reflexivity. Qed.

(** [t / 10] for [t] in [range(11)]. *)
Lemma int_truediv_threshold (i : nat) :
  (i < 11)%nat -> int_truediv (Z.of_nat i) 10 = Ok (threshold_at i).
Proof.
  intro Hi. do 11 (destruct i as [ | i ]; [vm_compute; reflexivity | ]). lia.
Qed.

Lemma thresholds_increasing (i j : nat) :
  (i < j < 11)%nat -> flt (threshold_at i) (threshold_at j) = true.
Proof.
  intros [Hij Hj].
  assert (Hall : forallb (fun a => forallb (fun b =>
            if (a <? b)%nat then flt (threshold_at a) (threshold_at b) else true)
            (seq 0 11)) (seq 0 11) = true) by (vm_compute; reflexivity).
  rewrite forallb_forall in Hall.
  specialize (Hall i ltac:(apply in_seq; lia)).
  rewrite forallb_forall in Hall.
  specialize (Hall j ltac:(apply in_seq; lia)).
  destruct (Nat.ltb_spec i j); [assumption | lia].
Qed.

(** The sweep appends one point per threshold, in order. *)
Lemma sweep_loop_spec (scores : list float) (labels : list Z) (ts : list Z) :
  Forall (fun t => raises (sweep_point scores labels t) = false) ts ->
  forall tpr fpr : list float,
    sweep_loop scores labels ts tpr fpr =
    Ok (tpr ++ map (fun t => fst (point_or_nan (sweep_point scores labels t))) ts,
        fpr ++ map (fun t => snd (point_or_nan (sweep_point scores labels t))) ts).
Proof.
  induction 1 as [ | t rest Ht _ IH ]; intros tpr fpr.
  - cbn. rewrite !app_nil_r. reflexivity.
  - cbn [sweep_loop map].
    destruct (sweep_point scores labels t) as [[a b] | e]; [ | discriminate Ht].
    cbn [bind point_or_nan fst snd]. rewrite IH, <- !app_assoc. reflexivity.
Qed.

(** Each iteration of the sweep succeeds on valid labels. *)
Lemma sweep_point_spec (scores : list float) (labels : list Z) (i : nat) :
  Forall index_ok labels -> Z.of_nat (length labels) < 2 ^ 53 -> (i < 11)%nat ->
  exists (cm : matrix) (ab : float * float),
    confusion_loop scores labels (threshold_at i) = Ok cm /\
    rates cm = Ok ab /\
    sweep_point scores labels (Z.of_nat i) = Ok ab.
Proof.
  intros Hl Hn Hi.
  destruct (confusion_loop_spec scores labels (threshold_at i) Hl) as [Hcm Hsum].
  set (pairs := combine labels (predictions scores (threshold_at i))) in *.
  pose proof (count_cell_nonneg 0 0 pairs). pose proof (count_cell_nonneg 0 1 pairs).
  pose proof (count_cell_nonneg 1 0 pairs). pose proof (count_cell_nonneg 1 1 pairs).
  assert (Z.of_nat (Nat.min (length labels) (length scores)) <= Z.of_nat (length labels))
    by (apply Nat2Z.inj_le, Nat.le_min_l).
  destruct (rate_spec (count_cell 1 1 pairs) (count_cell 1 0 pairs)) as (a & Ha & _); try lia.
  destruct (rate_spec (count_cell 0 1 pairs) (count_cell 0 0 pairs)) as (b & Hb & _); try lia.
  eexists. exists (a, b). split; [exact Hcm | ].
  assert (Hr : rates [[count_cell 0 0 pairs; count_cell 0 1 pairs];
                      [count_cell 1 0 pairs; count_cell 1 1 pairs]] = Ok (a, b))
    by (rewrite rates_cells, Ha, Hb; reflexivity).
  split; [exact Hr | ].
  unfold sweep_point. rewrite int_truediv_threshold by assumption. cbn [bind].
  rewrite Hcm. cbn [bind]. exact Hr.
Qed.

(** * Facts about the sweep and about input that breaks the preconditions *)

Lemma make_tpr_fpr_points (scores : list float) (labels : list Z) :
  Forall index_ok labels -> Z.of_nat (length labels) < 2 ^ 53 ->
  make_tpr_fpr scores labels =
  Ok (map (fun t => fst (point_or_nan (sweep_point scores labels t))) (range 11),
      map (fun t => snd (point_or_nan (sweep_point scores labels t))) (range 11)).
Proof.
  intros Hok Hn.
  assert (Hall : Forall (fun t => raises (sweep_point scores labels t) = false) (range 11)).
  { unfold range. apply Forall_map, Forall_forall. intros i Hi.
    apply in_seq in Hi.
    destruct (sweep_point_spec scores labels i Hok Hn ltac:(lia)) as (cm & ab & _ & _ & ->).
    reflexivity. }
  unfold make_tpr_fpr. rewrite (sweep_loop_spec _ _ _ Hall). reflexivity.
Qed.

Lemma range_nth (f : Z -> float) (i : nat) :
  (i < 11)%nat -> nth i (map f (range 11)) S754_nan = f (Z.of_nat i).
Proof.
  intro Hi. unfold range.
  rewrite (nth_indep _ S754_nan (f (Z.of_nat 0)))
    by (rewrite !length_map, length_seq; lia).
  rewrite !map_nth, seq_nth by lia. reflexivity.
Qed.

Lemma combine_exists_first (P : Z -> Prop) (labels preds : list Z) (l : Z) :
  In l (firstn (length preds) labels) -> P l ->
  Exists (fun ap => P (fst ap)) (combine labels preds).
Proof.
  revert preds. induction labels as [ | a labels IH ]; intros preds Hin HP.
  - rewrite firstn_nil in Hin. destruct Hin.
  - destruct preds as [ | p preds ]; [destruct Hin | ].
    cbn [length firstn combine] in *. destruct Hin as [-> | Hin].
    + apply Exists_cons_hd. exact HP.
    + apply Exists_cons_tl. apply IH; assumption.
Qed.

Lemma combine_snd_bits (labels preds : list Z) :
  Forall is_bit preds -> Forall (fun ap => is_bit (snd ap)) (combine labels preds).
Proof.
  intro Hp. revert labels. induction Hp as [ | p ps Hp _ IH ]; intros [ | a labels];
    cbn [combine]; constructor; [exact Hp | apply IH].
Qed.

Lemma count_cell_mod2 (row col : Z) (labels preds : list Z) :
  count_cell row col (combine (map (fun l => l mod 2) labels) preds) =
  count_cell row col (combine labels preds).
Proof.
  revert preds. induction labels as [ | a labels IH ]; intros [ | p preds];
    cbn [map combine count_cell]; try reflexivity.
  rewrite Z.mod_mod by lia. rewrite IH. reflexivity.
Qed.

Lemma mod2_index_ok (labels : list Z) :
  Forall index_ok (map (fun l => l mod 2) labels).
Proof.
  apply Forall_map, Forall_forall. intros l _. unfold index_ok.
  pose proof (Z.mod_pos_bound l 2 ltac:(lia)). lia.
Qed.


Lemma flt_fle (x y : float) : flt x y = true -> fle x y = true.
Proof.
  unfold flt, fle, SFltb, SFleb.
  destruct (SFcompare x y) as [[ | | ] | ]; (reflexivity || discriminate).
Qed.

Lemma rate_unit (num other : Z) :
  0 <= num -> 0 <= other -> num + other < 2 ^ 53 ->
  exists r : float, rate num other = Ok r /\ unit_rate num other r.
Proof.
  intros Hn Ho Hs.
  destruct (rate_spec num other Hn Ho Hs) as (r & Hr & Hzero & Hone & Hmid).
  exists r. split; [exact Hr | ]. unfold unit_rate.
  assert (Hcases : num = 0 \/ (0 < num /\ other = 0) \/ (0 < num /\ 0 < other)) by lia.
  destruct Hcases as [Hz | [[Hp Hz] | [Hp Hq]]].
  - rewrite (Hzero Hz). repeat split; try reflexivity; lia.
  - rewrite (Hone Hp Hz). repeat split; try reflexivity; lia.
  - destruct (Hmid Hp Hq) as [Hlo Hhi].
    repeat split; try (apply flt_fle); try assumption; lia.
Qed.

Lemma count_cell_absent_row (row col : Z) (labels preds : list Z) :
  Forall (fun l => l mod 2 <> row) labels ->
  count_cell row col (combine labels preds) = 0.
Proof.
  intro Hl. revert preds. induction Hl as [ | l labels Hl _ IH ]; intros [ | p preds];
    cbn [combine count_cell]; try reflexivity.
  destruct (Z.eqb_spec (l mod 2) row) as [E | _]; [contradiction | ].
  cbn [andb]. rewrite IH. reflexivity.
Qed.

Lemma plot1_equal_length (scores : list float) (labels : list Z) (t : float) :
  length scores = length labels ->
  plot1 scores labels t = confusion_loop scores labels t.
Proof.
  intro Hlen. unfold plot1, bool_mask.
  rewrite !length_map, Hlen, Nat.eqb_refl.
  destruct (confusion_loop scores labels t); reflexivity.
Qed.

Lemma f1_one_class (scores : list float) (labels : list Z) (t : float) (row : Z) :
  length scores = length labels -> Z.of_nat (length labels) < 2 ^ 53 ->
  Forall index_ok labels -> Forall (fun l => l mod 2 <> row) labels ->
  exists tpr fpr : float,
    f1 scores labels t = Ok (tpr, fpr) /\
    (row = 1 -> tpr = pos_zero) /\ (row = 0 -> fpr = pos_zero).
Proof.
  intros Hlen Hn Hok Habs.
  destruct (confusion_loop_spec scores labels t Hok) as [Hcm Hsum].
  set (pairs := combine labels (predictions scores t)) in *.
  pose proof (count_cell_nonneg 0 0 pairs). pose proof (count_cell_nonneg 0 1 pairs).
  pose proof (count_cell_nonneg 1 0 pairs). pose proof (count_cell_nonneg 1 1 pairs).
  rewrite Hlen, Nat.min_id in Hsum.
  destruct (rate_spec (count_cell 1 1 pairs) (count_cell 1 0 pairs))
    as (a & Ha & Hza & _); try lia.
  destruct (rate_spec (count_cell 0 1 pairs) (count_cell 0 0 pairs))
    as (b & Hb & Hzb & _); try lia.
  exists a, b. split.
  - unfold f1. rewrite plot1_equal_length, Hcm by assumption. cbn [bind].
    rewrite rates_cells, Ha, Hb. reflexivity.
  - split; intro Hrow; [apply Hza | apply Hzb]; unfold pairs;
      apply count_cell_absent_row; rewrite <- Hrow; exact Habs.
Qed.

(** * The claims *)

(** C1. For scores and labels of equal length, labels in {0,1}, and every
    threshold, the per-sample loop returns four non-negative cells whose sum
    is the length of the input; [plot1] hands the same matrix back. *)
Theorem confusion_matrix_cells_sum (scores : list float) (labels : list Z) (t : float) :
  length scores = length labels ->
  Forall is_bit labels ->
  exists tn fp fn tp : Z,
    confusion_loop scores labels t = Ok [[tn; fp]; [fn; tp]] /\
    plot1 scores labels t = Ok [[tn; fp]; [fn; tp]] /\
    0 <= tn /\ 0 <= fp /\ 0 <= fn /\ 0 <= tp /\
    tn + fp + fn + tp = Z.of_nat (length labels).
Proof.
  intros Hlen Hbits.
  assert (Hok : Forall index_ok labels)
    by (eapply Forall_impl; [exact is_bit_index_ok | exact Hbits]).
  destruct (confusion_loop_spec scores labels t Hok) as [Hcm Hsum].
  set (pairs := combine labels (predictions scores t)) in *.
  exists (count_cell 0 0 pairs), (count_cell 0 1 pairs),
         (count_cell 1 0 pairs), (count_cell 1 1 pairs).
  split; [exact Hcm | ]. split.
  - rewrite plot1_equal_length by assumption. exact Hcm.
  - repeat split; try apply count_cell_nonneg.
    rewrite Hsum, Hlen, Nat.min_id. reflexivity.
Qed.

Lemma confusion_matrix_cells_sum_witness :
  length example_scores = length [1; 1; 0; 0] /\
  Forall is_bit [1; 1; 0; 0] /\
  exists tn fp fn tp : Z,
    confusion_loop example_scores [1; 1; 0; 0] (decimal 5 10) = Ok [[tn; fp]; [fn; tp]] /\
    plot1 example_scores [1; 1; 0; 0] (decimal 5 10) = Ok [[tn; fp]; [fn; tp]] /\
    0 <= tn /\ 0 <= fp /\ 0 <= fn /\ 0 <= tp /\
    tn + fp + fn + tp = Z.of_nat (length [1; 1; 0; 0]).
Proof.
  split; [reflexivity | ]. split; [bits | ].
  apply (confusion_matrix_cells_sum example_scores [1; 1; 0; 0] (decimal 5 10));
    [reflexivity | bits].
Defined.

(** C2. On a matrix of non-negative counts (fewer than 2^53 samples per row)
    the rates computed by the code are [TP / (TP + FN + 1e-20)] and
    [FP / (FP + TN + 1e-20)], with [TP = matrix[1][1]], [FN = matrix[1][0]],
    [FP = matrix[0][1]], [TN = matrix[0][0]], and nothing is raised; a row
    without samples gives the rate 0. In particular, on a sample set without
    actual positives [f1] writes a TPR of 0, and on one without actual
    negatives an FPR of 0. *)
Theorem rates_match_formula :
  (forall tn fp fn tp : Z,
     0 <= tn -> 0 <= fp -> 0 <= fn -> 0 <= tp ->
     tp + fn < 2 ^ 53 -> fp + tn < 2 ^ 53 ->
     rates [[tn; fp]; [fn; tp]] = Ok (computeRates_spec tp fn fp tn) /\
     (tp + fn = 0 -> fst (computeRates_spec tp fn fp tn) = pos_zero) /\
     (fp + tn = 0 -> snd (computeRates_spec tp fn fp tn) = pos_zero)) /\
  (forall (scores : list float) (labels : list Z) (t : float),
     length scores = length labels -> Z.of_nat (length labels) < 2 ^ 53 ->
     (Forall (fun l => l = 0) labels ->
      exists fpr : float, f1 scores labels t = Ok (pos_zero, fpr)) /\
     (Forall (fun l => l = 1) labels ->
      exists tpr : float, f1 scores labels t = Ok (tpr, pos_zero))).
Proof.
  split.
  - intros tn fp fn tp Htn Hfp Hfn Htp Hp Hn. split; [ | split ].
    + rewrite rates_cells, !rate_formula by lia. reflexivity.
    + intro Hz. assert (tp = 0) by lia. assert (fn = 0) by lia. subst. reflexivity.
    + intro Hz. assert (fp = 0) by lia. assert (tn = 0) by lia. subst. reflexivity.
  - intros scores labels t Hlen Hn. split; intro Hall.
    + destruct (f1_one_class scores labels t 1 Hlen Hn) as (a & b & Hf & Ha & _).
      * eapply Forall_impl; [ | exact Hall ]. intros l ->. unfold index_ok. lia.
      * eapply Forall_impl; [ | exact Hall ]. intros l ->. discriminate.
      * exists b. rewrite Hf, (Ha eq_refl). reflexivity.
    + destruct (f1_one_class scores labels t 0 Hlen Hn) as (a & b & Hf & _ & Hb).
      * eapply Forall_impl; [ | exact Hall ]. intros l ->. unfold index_ok. lia.
      * eapply Forall_impl; [ | exact Hall ]. intros l ->. discriminate.
      * exists a. rewrite Hf, (Hb eq_refl). reflexivity.
Qed.

Lemma rates_match_formula_witness :
  (rates [[3; 0]; [0; 0]] = Ok (computeRates_spec 0 0 0 3) /\
   (0 + 0 = 0 -> fst (computeRates_spec 0 0 0 3) = pos_zero) /\
   (0 + 3 = 0 -> snd (computeRates_spec 0 0 0 3) = pos_zero)) /\
  (length [decimal 3 10; decimal 1 10] = length [0; 0] /\
   Forall (fun l => l = 0) [0; 0] /\
   exists fpr : float,
     f1 [decimal 3 10; decimal 1 10] [0; 0] (decimal 5 10) = Ok (pos_zero, fpr)).
Proof.
  split.
  - apply (proj1 rates_match_formula 3 0 0 0); (lia || reflexivity).
  - split; [reflexivity | ]. split; [repeat constructor | ].
    apply (proj2 rates_match_formula [decimal 3 10; decimal 1 10] [0; 0] (decimal 5 10));
      [reflexivity | reflexivity | repeat constructor].
Defined.

(** C3, as the code has it. The sweep takes no step count: it is fixed at
    [K = 10]. For labels in {0,1} (and fewer than 2^53 of them)
    [make_tpr_fpr] returns two sequences of exactly 11 values; entry [i] of
    each is the rate computed from the confusion matrix at threshold
    [i / 10]; and these thresholds increase strictly with [i]. *)
Theorem sweep_has_eleven_points (scores : list float) (labels : list Z) :
  Forall is_bit labels -> Z.of_nat (length labels) < 2 ^ 53 ->
  exists tprs fprs : list float,
    make_tpr_fpr scores labels = Ok (tprs, fprs) /\
    length tprs = 11%nat /\ length fprs = 11%nat /\
    (forall i : nat, (i < 11)%nat ->
       int_truediv (Z.of_nat i) 10 = Ok (threshold_at i) /\
       exists cm : matrix,
         confusion_loop scores labels (threshold_at i) = Ok cm /\
         rates cm = Ok (nth i tprs S754_nan, nth i fprs S754_nan)) /\
    (forall i j : nat, (i < j < 11)%nat ->
       flt (threshold_at i) (threshold_at j) = true).
Proof.
  intros Hbits Hn.
  assert (Hok : Forall index_ok labels)
    by (eapply Forall_impl; [exact is_bit_index_ok | exact Hbits]).
  rewrite (make_tpr_fpr_points scores labels Hok Hn).
  eexists. eexists. split; [reflexivity | ].
  split; [reflexivity | ]. split; [reflexivity | ]. split.
  - intros i Hi. split; [apply int_truediv_threshold; assumption | ].
    destruct (sweep_point_spec scores labels i Hok Hn Hi) as (cm & ab & Hcm & Hr & Hpt).
    exists cm. split; [exact Hcm | ]. rewrite Hr. f_equal.
    rewrite !range_nth, Hpt by assumption. cbn [point_or_nan]. destruct ab; reflexivity.
  - apply thresholds_increasing.
Qed.

Lemma sweep_has_eleven_points_witness :
  Forall is_bit [1; 1; 0; 0] /\ Z.of_nat (length [1; 1; 0; 0]) < 2 ^ 53 /\
  exists tprs fprs : list float,
    make_tpr_fpr example_scores [1; 1; 0; 0] = Ok (tprs, fprs) /\
    length tprs = 11%nat /\ length fprs = 11%nat /\
    (forall i : nat, (i < 11)%nat ->
       int_truediv (Z.of_nat i) 10 = Ok (threshold_at i) /\
       exists cm : matrix,
         confusion_loop example_scores [1; 1; 0; 0] (threshold_at i) = Ok cm /\
         rates cm = Ok (nth i tprs S754_nan, nth i fprs S754_nan)) /\
    (forall i j : nat, (i < j < 11)%nat ->
       flt (threshold_at i) (threshold_at j) = true).
Proof.
  split; [bits | ]. split; [reflexivity | ].
  apply (sweep_has_eleven_points example_scores [1; 1; 0; 0]); [bits | reflexivity].
Defined.

(** C3, as stated, fails: asked for a step count [K = 5], the sweep still
    returns 11 points, not [K + 1 = 6]. *)
Lemma sweep_step_count_is_not_a_parameter :
  let K := 5%nat in
  exists tprs fprs : list float,
    make_tpr_fpr example_scores [1; 1; 0; 0] = Ok (tprs, fprs) /\
    length tprs = 11%nat /\ length fprs = 11%nat /\
    length tprs <> S K /\ length fprs <> S K.
Proof.
  cbv zeta. eexists. eexists. split; [vm_compute; reflexivity | ].
  repeat split; cbn; lia.
Qed.



(** C5. The worked example: labels [1,1,0,0], scores [0.9, 0.8, 0.3, 0.1],
    threshold 0.5 give the matrix with cell (actual 1, predicted 1) = 2,
    (1,0) = 0, (0,1) = 0, (0,0) = 2, indexed actual first, and the rates
    [tpr = 1.0], [fpr = 0.0]. *)
Theorem worked_example_half :
  let cell (cm : matrix) (actual predicted : Z) :=
    bind (getitem cm actual) (fun row => getitem row predicted) in
  exists cm : matrix,
    plot1 example_scores [1; 1; 0; 0] (decimal 5 10) = Ok cm /\
    cell cm 1 1 = Ok 2 /\ cell cm 1 0 = Ok 0 /\
    cell cm 0 1 = Ok 0 /\ cell cm 0 0 = Ok 2 /\
    rates cm = Ok (one, pos_zero) /\
    f1 example_scores [1; 1; 0; 0] (decimal 5 10) = Ok (one, pos_zero) /\
    one = decimal 1 1 /\ pos_zero = decimal 0 1.
Proof.
  cbv zeta. exists [[2; 0]; [0; 2]]. repeat split; vm_compute; reflexivity.
Qed.




(** C7, as the code has it. A label that is not a valid index of a
    two-row list (2 or more, or below -2) among the zipped samples makes
    the loop, [plot1] and [make_tpr_fpr] raise [IndexError]. The labels -1
    and -2 raise nothing: Python counts them from the end, so they are
    counted as the labels 1 and 0. *)
Theorem label_outside_index_range (scores : list float) (labels : list Z) (t : float) :
  (forall l : Z,
     In l (firstn (length scores) labels) -> ~ index_ok l ->
     confusion_loop scores labels t = Raise IndexError /\
     plot1 scores labels t = Raise IndexError /\
     make_tpr_fpr scores labels = Raise IndexError) /\
  (Forall index_ok labels ->
   exists cm : matrix,
     confusion_loop scores labels t = Ok cm /\
     confusion_loop scores (map (fun l => l mod 2) labels) t = Ok cm).
Proof.
  split.
  - intros l Hin Hbad.
    assert (Hloop : forall t', confusion_loop scores labels t' = Raise IndexError).
    { intro t'. unfold confusion_loop, zero_matrix. apply count_loop_raises.
      - apply combine_snd_bits, predictions_bits.
      - apply (combine_exists_first (fun a => ~ index_ok a)) with l; [ | exact Hbad ].
        rewrite predictions_length. exact Hin. }
    split; [apply Hloop | ]. split.
    + unfold plot1. rewrite Hloop. reflexivity.
    + unfold make_tpr_fpr, range. cbn [seq map sweep_loop].
      unfold sweep_point at 1. change (int_truediv (Z.of_nat 0) 10) with (Ok pos_zero).
      cbn [bind]. rewrite Hloop. reflexivity.
  - intro Hok.
    destruct (confusion_loop_spec scores labels t Hok) as [Hcm _].
    destruct (confusion_loop_spec scores _ t (mod2_index_ok labels)) as [Hcm' _].
    eexists. split; [exact Hcm | ].
    rewrite Hcm', !count_cell_mod2. reflexivity.
Qed.

Lemma label_outside_index_range_witness :
  (In 2 (firstn (length example_scores) [1; 2; 0; 0]) /\ ~ index_ok 2 /\
   confusion_loop example_scores [1; 2; 0; 0] (decimal 5 10) = Raise IndexError /\
   plot1 example_scores [1; 2; 0; 0] (decimal 5 10) = Raise IndexError /\
   make_tpr_fpr example_scores [1; 2; 0; 0] = Raise IndexError) /\
  (Forall index_ok [1; -1; 0; -2] /\
   exists cm : matrix,
     confusion_loop example_scores [1; -1; 0; -2] (decimal 5 10) = Ok cm /\
     confusion_loop example_scores (map (fun l => l mod 2) [1; -1; 0; -2]) (decimal 5 10) = Ok cm).
Proof.
  split.
  - assert (Hin : In 2 (firstn (length example_scores) [1; 2; 0; 0]))
      by (right; left; reflexivity).
    assert (Hbad : ~ index_ok 2) by (unfold index_ok; lia).
    split; [exact Hin | ]. split; [exact Hbad | ].
    exact (proj1 (label_outside_index_range example_scores [1; 2; 0; 0] (decimal 5 10))
             2 Hin Hbad).
  - assert (Hok : Forall index_ok [1; -1; 0; -2]) by bits.
    split; [exact Hok | ].
    exact (proj2 (label_outside_index_range example_scores [1; -1; 0; -2] (decimal 5 10)) Hok).
Defined.

(** C7, as stated, fails: the label -1 is outside {0,1}, yet the loop
    raises nothing and counts the sample in row 1. *)
Lemma negative_label_is_counted :
  ~ is_bit (-1) /\
  confusion_loop [decimal 9 10] [-1] (decimal 5 10) = Ok [[0; 0]; [0; 1]].
Proof.
  split; [unfold is_bit; lia | vm_compute; reflexivity].
Qed.

(** C8, as the code has it. On non-negative counts (fewer than 2^53 per
    row) both rates lie in the closed interval [0, 1]: a rate is exactly 0
    when its numerator is 0, exactly 1 when its numerator is positive and
    the other cell of the row is 0 (binary64 absorbs the 1e-20), and
    strictly between 0 and 1 when both cells are positive. *)
Theorem rates_in_closed_unit_interval (tn fp fn tp : Z) :
  0 <= tn -> 0 <= fp -> 0 <= fn -> 0 <= tp ->
  tp + fn < 2 ^ 53 -> fp + tn < 2 ^ 53 ->
  exists tpr fpr : float,
    rates [[tn; fp]; [fn; tp]] = Ok (tpr, fpr) /\
    unit_rate tp fn tpr /\ unit_rate fp tn fpr.
Proof.
  intros Htn Hfp Hfn Htp Hp Hn.
  destruct (rate_unit tp fn Htp Hfn Hp) as (tpr & Ha & Hua).
  destruct (rate_unit fp tn Hfp Htn Hn) as (fpr & Hb & Hub).
  exists tpr, fpr. split; [ | split; assumption ].
  rewrite rates_cells, Ha, Hb. reflexivity.
Qed.

Lemma rates_in_closed_unit_interval_witness :
  exists tpr fpr : float,
    rates [[1; 1]; [0; 2]] = Ok (tpr, fpr) /\
    unit_rate 2 0 tpr /\ unit_rate 1 1 fpr.
Proof.
  apply (rates_in_closed_unit_interval 1 1 0 2); (lia || reflexivity).
Defined.

(** C8, as stated, fails: with [TP = 2] and [FN = 0] the rate is exactly
    1.0, which is not strictly below 1. *)
Lemma rate_reaches_one :
  rate 2 0 = Ok one /\ flt one one = false /\
  rates [[2; 0]; [0; 2]] = Ok (one, pos_zero).
Proof.
  repeat split; vm_compute; reflexivity.
Qed.

(** C9. The scores returned by [DummyClassifier.predict] do not depend on
    the values (or the shape) of a 2-dimensional [X], nor on the state the
    global generator was in: they are determined by the number of 1-labels
    and of 0-labels in [y] and by the per-class mean and standard deviation,
    the generator being reseeded with 40 before each class is drawn. *)
Theorem predict_ignores_features (rng_state : Type) (seed : Z -> rng_state)
    (draw : rng_state -> float * rng_state) (self : DummyClassifier)
    (X1 X2 : ndarray) (y1 y2 : list Z) (st1 st2 : rng_state) :
  ndim X1 = 2%nat -> ndim X2 = 2%nat ->
  count_label 1 y1 = count_label 1 y2 ->
  count_label 0 y1 = count_label 0 y2 ->
  predict seed draw self X1 y1 st1 = predict seed draw self X2 y2 st2 /\
  fst (predict seed draw self X1 y1 st1) =
  Ok (scale (pos_label_std self) (pos_label_mean self)
        (fst (randn draw (count_label 1 y1) (seed 40)))
      ++ scale (neg_label_std self) (neg_label_mean self)
        (fst (randn draw (count_label 0 y1) (seed 40)))).
Proof.
  intros H1 H2 Hp Hq.
  assert (Hform : forall X y st, ndim X = 2%nat ->
            predict seed draw self X y st =
            (Ok (scale (pos_label_std self) (pos_label_mean self)
                   (fst (randn draw (count_label 1 y) (seed 40)))
                 ++ scale (neg_label_std self) (neg_label_mean self)
                   (fst (randn draw (count_label 0 y) (seed 40)))),
             snd (randn draw (count_label 0 y) (seed 40)))).
  { intros X y st HX. unfold predict. rewrite HX. cbn [Nat.eqb negb].
    unfold ndim in HX. destruct (shape X) as [ | a [ | b [ | c rest ] ] ]; try discriminate HX.
    destruct (randn draw (count_label 1 y) (seed 40)) as [zs s'].
    destruct (randn draw (count_label 0 y) (seed 40)) as [zs' s''].
    reflexivity. }
  rewrite (Hform X1 y1 st1 H1), (Hform X2 y2 st2 H2), Hp, Hq.
  split; reflexivity.
Qed.

Lemma predict_ignores_features_witness :
  let seed := fun n : Z => n in
  let draw := fun st : Z => (of_Z st, st + 1) in
  let clf := {| pos_label_mean := decimal 6 10; pos_label_std := decimal 1 100;
                neg_label_mean := decimal 2 10; neg_label_std := decimal 1 100 |} in
  let X1 := {| shape := [2%nat; 1%nat]; data := [decimal 1 10; decimal 2 10] |} in
  let X2 := {| shape := [1%nat; 3%nat]; data := [pos_zero; one; one] |} in
  predict seed draw clf X1 [1; 0] 7 = predict seed draw clf X2 [0; 1] 9 /\
  fst (predict seed draw clf X1 [1; 0] 7) =
  Ok (scale (pos_label_std clf) (pos_label_mean clf)
        (fst (randn draw (count_label 1 [1; 0]) (seed 40)))
      ++ scale (neg_label_std clf) (neg_label_mean clf)
        (fst (randn draw (count_label 0 [1; 0]) (seed 40)))).
Proof.
  cbv zeta.
  apply (predict_ignores_features Z (fun n : Z => n) (fun st : Z => (of_Z st, st + 1)));
    reflexivity.
Defined.

(** C10. With no sample at all the loop returns the all-zero matrix, both
    rates are 0, and the sweep returns 0 for TPR and FPR at each of its 11
    points; nothing is raised, every divisor being [0 + 1e-20]. *)
Theorem empty_input_all_zero (t : float) :
  confusion_loop [] [] t = Ok zero_matrix /\
  plot1 [] [] t = Ok zero_matrix /\
  rates zero_matrix = Ok (pos_zero, pos_zero) /\
  f1 [] [] t = Ok (pos_zero, pos_zero) /\
  make_tpr_fpr [] [] = Ok (repeat pos_zero 11, repeat pos_zero 11) /\
  fadd (of_Z (0 + 0)) eps = eps /\ is_zero eps = false.
Proof.
  repeat split; vm_compute; reflexivity.
Qed.

(** * Further facts about the counting loop *)

Lemma count_cell_samples (row : Z) (pred : bool) (scores : list float)
    (labels : list Z) (t : float) :
  Forall is_bit labels ->
  count_cell row (if pred then 1 else 0) (combine labels (predictions scores t)) =
  count_samples row pred scores labels t.
Proof.
  unfold count_samples. intro Hl. revert scores.
  induction Hl as [ | l labels Hl _ IH ]; intros [ | s scores]; try reflexivity.
  cbn [predictions map combine count_cell filter fst snd].
  fold (predictions scores t). rewrite IH.
  replace (l mod 2) with l by (destruct Hl as [-> | ->]; reflexivity).
  destruct (l =? row); cbn [andb]; [ | reflexivity].
  destruct (fge s t), pred; cbn [Bool.eqb Z.eqb Pos.eqb length];
    rewrite ?Nat2Z.inj_succ; lia.
Qed.

Lemma confusion_loop_counts (scores : list float) (labels : list Z) (t : float) :
  Forall is_bit labels ->
  confusion_loop scores labels t =
  Ok [[count_samples 0 false scores labels t; count_samples 0 true scores labels t];
      [count_samples 1 false scores labels t; count_samples 1 true scores labels t]].
Proof.
  intro Hl.
  assert (Hok : Forall index_ok labels)
    by (eapply Forall_impl; [exact is_bit_index_ok | exact Hl]).
  destruct (confusion_loop_spec scores labels t Hok) as [-> _].
  rewrite <- !count_cell_samples by assumption. reflexivity.
Qed.

Lemma count_samples_row (label : Z) (scores : list float) (labels : list Z) (t : float) :
  count_samples label true scores labels t + count_samples label false scores labels t =
  Z.of_nat (count_label label (firstn (length scores) labels)).
Proof.
  unfold count_samples, count_label. revert scores.
  induction labels as [ | l labels IH ]; intros [ | s scores]; try reflexivity.
  cbn [combine filter fst snd length firstn].
  specialize (IH scores). rewrite (Z.eqb_sym l label).
  destruct (label =? l); cbn [andb]; [ | exact IH].
  destruct (fge s t); cbn [Bool.eqb length]; rewrite ?Nat2Z.inj_succ; lia.
Qed.

Lemma count_samples_nonneg (label : Z) (pred : bool) (scores : list float)
    (labels : list Z) (t : float) :
  0 <= count_samples label pred scores labels t.
Proof. unfold count_samples. lia. Qed.

Lemma filter_length_mono {A : Type} (f g : A -> bool) (l : list A) :
  (forall x, In x l -> f x = true -> g x = true) ->
  (length (filter f l) <= length (filter g l))%nat.
Proof.
  induction l as [ | a l IH ]; intro H; [reflexivity | ].
  cbn [filter]. specialize (IH (fun x Hx => H x (or_intror Hx))).
  pose proof (H a (or_introl eq_refl)) as Ha.
  destruct (f a); [rewrite Ha by reflexivity | destruct (g a)]; cbn [length]; lia.
Qed.

Lemma filter_length_perm {A : Type} (f : A -> bool) (l l' : list A) :
  Permutation l l' -> length (filter f l) = length (filter f l').
Proof.
  induction 1 as [ | x l l' _ IH | x y l | l l' l'' _ IH1 _ IH2 ]; cbn [filter].
  - reflexivity.
  - destruct (f x); cbn [length]; rewrite IH; reflexivity.
  - destruct (f x), (f y); reflexivity.
  - rewrite IH1. exact IH2.
Qed.

(** * Order facts about binary64 comparison *)

Lemma fge_fle_trans (s t1 t2 : float) :
  fle t1 t2 = true -> fge s t2 = true -> fge s t1 = true.
Proof.
  unfold fle, SFleb, fge.
  destruct s as [ss | ss | | ss ms es], t1 as [s1 | s1 | | s1 m1 e1],
    t2 as [s2 | s2 | | s2 m2 e2]; cbn [SFcompare];
    try discriminate; try reflexivity;
    repeat match goal with b : bool |- _ => destruct b end;
    try discriminate; try reflexivity;
    intros H1 H2; compare_cases.
Qed.

Lemma count_label_le (v : Z) (y : list Z) : (count_label v y <= length y)%nat.
Proof. unfold count_label. apply List.filter_length_le. Qed.

Lemma count_label_pos (v : Z) (y : list Z) :
  In v y <-> (0 < count_label v y)%nat.
Proof.
  unfold count_label. induction y as [ | a y IH ]; cbn [In filter length].
  - split; [intros [] | lia].
  - destruct (Z.eqb_spec v a) as [E | E]; cbn [length].
    + split; [lia | auto].
    + rewrite <- IH. split; [intros [H | H]; [congruence | exact H] | auto].
Qed.

Lemma combine_app_eq {A B : Type} (l1 l2 : list A) (l1' l2' : list B) :
  length l1 = length l1' ->
  combine (l1 ++ l2) (l1' ++ l2') = combine l1 l1' ++ combine l2 l2'.
Proof.
  revert l1'. induction l1 as [ | a l1 IH ]; intros [ | b l1'] H;
    try discriminate H; [reflexivity | ].
  cbn [app combine]. rewrite IH by (injection H; auto). reflexivity.
Qed.

Lemma count_samples_app (label : Z) (pred : bool) (scores1 scores2 : list float)
    (labels1 labels2 : list Z) (t : float) :
  length scores1 = length labels1 ->
  count_samples label pred (scores1 ++ scores2) (labels1 ++ labels2) t =
  count_samples label pred scores1 labels1 t + count_samples label pred scores2 labels2 t.
Proof.
  intro H. unfold count_samples.
  rewrite combine_app_eq, filter_app, length_app by (symmetry; exact H). lia.
Qed.

Lemma count_samples_all (label : Z) (pred : bool) (scores : list float)
    (labels : list Z) (t : float) :
  Forall (fun ls => fst ls = label -> fge (snd ls) t = pred) (combine labels scores) ->
  count_samples label pred scores labels t =
    Z.of_nat (count_label label (firstn (length scores) labels)) /\
  count_samples label (negb pred) scores labels t = 0.
Proof.
  intro H.
  assert (Hz : count_samples label (negb pred) scores labels t = 0).
  { unfold count_samples. replace (filter _ _) with (@nil (Z * float)); [reflexivity | ].
    symmetry. induction H as [ | [l s] rest Hx _ IH ]; [reflexivity | ].
    cbn [filter fst snd] in *. rewrite IH.
    destruct (Z.eqb_spec l label) as [E | E]; [ | reflexivity].
    rewrite (Hx E). destruct pred; reflexivity. }
  split; [ | exact Hz].
  pose proof (count_samples_row label scores labels t) as Hrow.
  destruct pred; cbn [negb] in Hz; lia.
Qed.

Lemma rates_of_loop (scores : list float) (labels : list Z) (t : float) :
  Forall is_bit labels -> Z.of_nat (length labels) < 2 ^ 53 ->
  bind (confusion_loop scores labels t) rates =
  bind (rate (count_samples 1 true scores labels t) (count_samples 1 false scores labels t))
    (fun tpr =>
  bind (rate (count_samples 0 true scores labels t) (count_samples 0 false scores labels t))
    (fun fpr => Ok (tpr, fpr))).
Proof.
  intros Hl Hn. rewrite confusion_loop_counts by assumption. reflexivity.
Qed.

Lemma count_samples_row_bound (label : Z) (scores : list float) (labels : list Z) (t : float) :
  count_samples label true scores labels t + count_samples label false scores labels t
  <= Z.of_nat (length labels).
Proof.
  rewrite count_samples_row. apply Nat2Z.inj_le.
  etransitivity; [apply count_label_le | ].
  rewrite length_firstn. apply Nat.le_min_r.
Qed.

Lemma rate_full (n : Z) :
  0 <= n < 2 ^ 53 -> rate n 0 = Ok (if 0 <? n then one else pos_zero).
Proof.
  intro Hn. destruct (rate_spec n 0 ltac:(lia) ltac:(lia) ltac:(lia))
    as (r & -> & Hz & Ho & _).
  destruct (Z.ltb_spec 0 n) as [Hp | Hp]; f_equal; [apply Ho | apply Hz]; lia.
Qed.

Lemma rate_none (n : Z) : 0 <= n < 2 ^ 53 -> rate 0 n = Ok pos_zero.
Proof.
  intro Hn. destruct (rate_spec 0 n ltac:(lia) ltac:(lia) ltac:(lia))
    as (r & -> & Hz & _). f_equal. apply Hz. reflexivity.
Qed.

Lemma f1_equal_length (scores : list float) (labels : list Z) (t : float) :
  length scores = length labels ->
  f1 scores labels t = bind (confusion_loop scores labels t) rates.
Proof. intro H. unfold f1. rewrite plot1_equal_length by assumption. reflexivity. Qed.

Lemma sweep_point_loop (scores : list float) (labels : list Z) (i : nat) :
  (i < 11)%nat ->
  sweep_point scores labels (Z.of_nat i) =
  bind (confusion_loop scores labels (threshold_at i)) rates.
Proof.
  intro Hi. unfold sweep_point. rewrite int_truediv_threshold by assumption. reflexivity.
Qed.

Lemma Forall_combine_snd {A B : Type} (P : B -> Prop) (l : list A) (l' : list B) :
  Forall P l' -> Forall (fun ab => P (snd ab)) (combine l l').
Proof.
  intro H. revert l. induction H as [ | b l' Hb _ IH ]; intros [ | a l];
    cbn [combine]; constructor; [exact Hb | apply IH].
Qed.

(** The matrix and the rates when the prediction of each sample is decided
    by its label alone: [p1] for the samples labelled 1, [p0] for the
    others. *)
Lemma loop_decided_by_label (scores : list float) (labels : list Z) (t : float)
    (p1 p0 : bool) :
  length scores = length labels ->
  Forall is_bit labels -> Z.of_nat (length labels) < 2 ^ 53 ->
  Forall (fun ls => fge (snd ls) t = if fst ls =? 1 then p1 else p0)
         (combine labels scores) ->
  let P := Z.of_nat (count_label 1 labels) in
  let N := Z.of_nat (count_label 0 labels) in
  let full n := if 0 <? n then one else pos_zero in
  confusion_loop scores labels t =
    Ok [[if p0 then 0 else N; if p0 then N else 0];
        [if p1 then 0 else P; if p1 then P else 0]] /\
  bind (confusion_loop scores labels t) rates =
    Ok (if p1 then full P else pos_zero, if p0 then full N else pos_zero).
Proof.
  intros Hlen Hl Hn Hsep P N full.
  assert (H1 : Forall (fun ls => fst ls = 1 -> fge (snd ls) t = p1) (combine labels scores)).
  { eapply Forall_impl; [ | exact Hsep ]. intros [l s] H E. cbn [fst snd] in *.
    rewrite H, E. reflexivity. }
  assert (H0 : Forall (fun ls => fst ls = 0 -> fge (snd ls) t = p0) (combine labels scores)).
  { eapply Forall_impl; [ | exact Hsep ]. intros [l s] H E. cbn [fst snd] in *.
    rewrite H, E. reflexivity. }
  destruct (count_samples_all 1 p1 scores labels t H1) as [A1 B1].
  destruct (count_samples_all 0 p0 scores labels t H0) as [A0 B0].
  rewrite Hlen, firstn_all in A1, A0. fold P in A1. fold N in A0.
  pose proof (count_label_le 1 labels). pose proof (count_label_le 0 labels).
  assert (HP : 0 <= P < 2 ^ 53) by (unfold P; lia).
  assert (HN : 0 <= N < 2 ^ 53) by (unfold N; lia).
  assert (Hcm : confusion_loop scores labels t =
            Ok [[if p0 then 0 else N; if p0 then N else 0];
                [if p1 then 0 else P; if p1 then P else 0]]).
  { rewrite confusion_loop_counts by assumption.
    destruct p1, p0; cbn [negb] in *; rewrite A1, A0, B1, B0; reflexivity. }
  split; [exact Hcm | ].
  rewrite Hcm. cbn [bind]. rewrite rates_cells.
  destruct p1, p0; rewrite ?rate_full, ?rate_none by assumption; reflexivity.
Qed.

(** * Facts about the score generator *)

Section GeneratorFacts.

Context {rng_state : Type}.
Variable seed : Z -> rng_state.
Variable draw : rng_state -> float * rng_state.

Lemma randn_length (n : nat) (st : rng_state) :
  length (fst (randn draw n st)) = n.
Proof.
  revert st. induction n as [ | n IH ]; intro st; [reflexivity | ].
  cbn [randn]. destruct (draw st) as [x st1]. specialize (IH st1).
  destruct (randn draw n st1) as [xs st2]. cbn [fst length] in *. rewrite IH. reflexivity.
Qed.

Lemma randn_prefix (n k : nat) (st : rng_state) :
  fst (randn draw n st) = firstn n (fst (randn draw (n + k) st)).
Proof.
  revert st. induction n as [ | n IH ]; intro st; [reflexivity | ].
  cbn [randn Nat.add]. destruct (draw st) as [x st1]. specialize (IH st1).
  destruct (randn draw n st1) as [xs st2]. destruct (randn draw (n + k) st1) as [ys st3].
  cbn [fst firstn] in *. rewrite IH. reflexivity.
Qed.

Lemma predict_2d (self : DummyClassifier) (X : ndarray) (y : list Z) (st : rng_state) :
  ndim X = 2%nat ->
  predict seed draw self X y st =
  (Ok (scale (pos_label_std self) (pos_label_mean self)
         (fst (randn draw (count_label 1 y) (seed 40)))
       ++ scale (neg_label_std self) (neg_label_mean self)
         (fst (randn draw (count_label 0 y) (seed 40)))),
   snd (randn draw (count_label 0 y) (seed 40))).
Proof.
  intro HX. unfold predict. rewrite HX. cbn [Nat.eqb negb].
  unfold ndim in HX. destruct (shape X) as [ | a [ | b [ | c rest ] ] ]; try discriminate HX.
  destruct (randn draw (count_label 1 y) (seed 40)) as [zs s'].
  destruct (randn draw (count_label 0 y) (seed 40)) as [zs' s''].
  reflexivity.
Qed.

Lemma predict_not_2d (self : DummyClassifier) (X : ndarray) (y : list Z) (st : rng_state) :
  ndim X <> 2%nat -> predict seed draw self X y st = (Raise AssertionError, st).
Proof.
  intro HX. unfold predict.
  destruct (Nat.eqb_spec (ndim X) 2) as [E | _]; [contradiction | reflexivity].
Qed.

End GeneratorFacts.

Lemma scale_length (std mean : float) (zs : list float) :
  length (scale std mean zs) = length zs.
Proof. apply length_map. Qed.

Lemma count_label_bits (y : list Z) :
  (count_label 1 y + count_label 0 y <= length y)%nat /\
  ((count_label 1 y + count_label 0 y = length y)%nat <-> Forall is_bit y).
Proof.
  unfold count_label. induction y as [ | a y [IHle IHeq] ]; cbn [filter length].
  - split; [lia | split; [constructor | reflexivity]].
  - destruct (Z.eqb_spec 1 a) as [E1 | E1], (Z.eqb_spec 0 a) as [E0 | E0];
      cbn [length]; try lia.
    + split; [lia | ]. split; intro H.
      * constructor; [right; auto | apply IHeq; lia].
      * inversion H; subst. apply IHeq in H3. lia.
    + split; [lia | ]. split; intro H.
      * constructor; [left; auto | apply IHeq; lia].
      * inversion H; subst. apply IHeq in H3. lia.
    + split; [lia | ]. split; intro H.
      * lia.
      * inversion H as [ | ? ? Ha ]; subst. destruct Ha; congruence.
Qed.

Lemma count_label_blocks (p q : nat) :
  count_label 1 (repeat 1 p ++ repeat 0 q) = p /\
  count_label 0 (repeat 1 p ++ repeat 0 q) = q.
Proof.
  unfold count_label. rewrite !filter_app, !length_app.
  assert (A : forall v n, length (filter (Z.eqb v) (repeat v n)) = n).
  { intros v n. induction n as [ | n IH ]; [reflexivity | ].
    cbn [repeat filter]. rewrite Z.eqb_refl. cbn [length]. rewrite IH. reflexivity. }
  assert (B : forall v w n, v <> w -> length (filter (Z.eqb v) (repeat w n)) = 0%nat).
  { intros v w n Hne. induction n as [ | n IH ]; [reflexivity | ].
    cbn [repeat filter]. destruct (Z.eqb_spec v w); [contradiction | exact IH]. }
  rewrite !A, !B by lia. lia.
Qed.

Lemma bool_mask_blocks {A : Type} (xs ys : list A) (p q : nat) (v : Z) :
  length xs = p -> length ys = q ->
  bool_mask (xs ++ ys) (map (Z.eqb v) (repeat 1 p ++ repeat 0 q)) =
  Ok (if v =? 1 then xs else if v =? 0 then ys else []).
Proof.
  intros Hx Hy. unfold bool_mask.
  rewrite length_map, !length_app, !repeat_length, Hx, Hy, Nat.eqb_refl.
  f_equal. rewrite map_app, combine_app_eq by (rewrite length_map, repeat_length; exact Hx).
  rewrite filter_app, map_app.
  assert (Hkeep : forall (l : list A) w n, length l = n -> (v =? w) = true ->
            map fst (filter snd (combine l (map (Z.eqb v) (repeat w n)))) = l).
  { intros l w n Hl Hv. subst n. induction l as [ | a l IH ]; [reflexivity | ].
    cbn [length repeat map combine filter snd]. rewrite Hv. cbn [map fst]. rewrite IH.
    reflexivity. }
  assert (Hdrop : forall (l : list A) w n, (v =? w) = false ->
            map fst (filter snd (combine l (map (Z.eqb v) (repeat w n)))) = []).
  { intros l w n Hv. revert l. induction n as [ | n IH ]; intros [ | a l]; try reflexivity.
    cbn [repeat map combine filter snd]. rewrite Hv. apply IH. }
  destruct (Z.eqb_spec v 1) as [E1 | E1].
  - subst v. rewrite Hkeep, Hdrop by (assumption || reflexivity). apply app_nil_r.
  - destruct (Z.eqb_spec v 0) as [E0 | E0].
    + subst v. rewrite Hdrop, Hkeep by (assumption || reflexivity). reflexivity.
    + rewrite !Hdrop; [reflexivity | | ]; apply Z.eqb_neq; assumption.
Qed.

(** * Facts about [int], [np.ceil] and halving *)

Lemma int_of_float_of_Z (c : Z) :
  0 <= c < 2 ^ 53 -> int_of_float (of_Z c) = Ok c.
Proof.
  intros [Hlo Hhi]. destruct c as [ | p | p ]; [reflexivity | | lia].
  unfold of_Z. rewrite binary_normalize_int by assumption.
  pose proof (norm53_spec p Hhi) as (_ & He & Hv).
  destruct (norm53 p) as [m e]. cbn [fst snd] in *. cbn [int_of_float].
  destruct (Z.leb_spec 0 e) as [H0 | H0].
  - assert (e = 0) by lia. subst e. cbn in Hv. rewrite Hv. f_equal. cbn. lia.
  - rewrite Hv, Z.div_mul; [reflexivity | ].
    assert (0 < 2 ^ (- e)) by (apply Z.pow_pos_nonneg; lia). lia.
Qed.

Lemma fdiv_two (m : positive) (e : Z) :
  Zpos (digits2_pos m) = 53 -> -52 <= e <= 0 ->
  fdiv (S754_finite false m e) (S754_finite false 4503599627370496 (-51)) =
  S754_finite false m (e - 1).
Proof.
  intros Hd He.
  pose proof (digits2_pos_bounds m) as [Hlo Hhi]. rewrite Hd in Hlo, Hhi.
  change (53 - 1) with 52 in Hlo.
  rewrite fdiv_finite by (assumption || reflexivity || lia). cbv zeta.
  change (Zpos 4503599627370496) with (2 ^ 52).
  replace (Zpos m * 2 ^ 53) with (2 * Zpos m * 2 ^ 52)
    by (change (2 ^ 53) with (2 * 2 ^ 52); lia).
  rewrite Z.div_mul, Z.mod_mul, new_location_zero by (intro E; discriminate E).
  destruct (Z.ltb_spec (2 * Zpos m) (2 ^ 53)) as [Hlt | _];
    [change (2 ^ 53) with (2 * 2 ^ 52) in Hlt; lia | ].
  cbn [shr_record_of_loc]. rewrite shr_1_value by lia.
  cbn [shr_m loc_of_shr_record].
  replace (2 * Zpos m / 2) with (Zpos m) by (symmetry; rewrite Z.mul_comm; apply Z.div_mul; lia).
  replace (Z.odd (2 * Zpos m)) with false
    by (symmetry; rewrite Z.odd_mul; reflexivity).
  cbn [orb xorb round_nearest_even].
  rewrite normalize_carry_below by assumption. f_equal. lia.
Qed.

Lemma fceil_half (p : positive) :
  Zpos p < 2 ^ 53 ->
  fceil (S754_finite false (fst (norm53 p)) (snd (norm53 p) - 1)) =
  of_Z ((Zpos p + 1) / 2).
Proof.
  intro Hp. pose proof (norm53_spec p Hp) as (_ & He & Hv).
  destruct (norm53 p) as [m e]. cbn [fst snd] in *. cbn [fceil].
  destruct (Z.leb_spec 0 (e - 1)) as [H0 | _]; [lia | ].
  replace (- (e - 1)) with (Z.succ (- e)) by lia.
  rewrite Z.pow_succ_r by lia.
  set (k := 2 ^ (- e)) in *.
  assert (Hk : 0 < k) by (apply Z.pow_pos_nonneg; lia).
  rewrite Hv.
  replace (Zpos p * k / (2 * k)) with (Zpos p / 2)
    by (rewrite Z.div_mul_cancel_r by lia; reflexivity).
  replace ((Zpos p * k) mod (2 * k)) with (Zpos p mod 2 * k)
    by (rewrite Z.mul_mod_distr_r by lia; reflexivity).
  unfold of_Z. f_equal.
  pose proof (Z.div_mod (Zpos p) 2 ltac:(lia)) as Hdm.
  pose proof (Z.mod_pos_bound (Zpos p) 2 ltac:(lia)) as Hmb.
  destruct (Z.eqb_spec (Zpos p mod 2 * k) 0) as [E | E].
  - assert (Zpos p mod 2 = 0) by nia.
    apply Z.div_unique with 1; lia.
  - assert (Zpos p mod 2 = 1) by nia.
    apply Z.div_unique with 0; lia.
Qed.

Lemma page_labels_spec (m : Z) :
  0 <= m < 2 ^ 53 ->
  page_labels m =
  Ok (repeat 1 (Z.to_nat ((m + 1) / 2)) ++ repeat 0 (Z.to_nat (m / 2))).
Proof.
  intros [Hlo Hhi]. unfold page_labels.
  assert (Hhalf : 0 <= m / 2) by (apply Z.div_pos; lia).
  assert (Hceil : 0 <= (m + 1) / 2 < 2 ^ 53).
  { split; [apply Z.div_pos; lia | apply Z.div_lt_upper_bound; lia]. }
  assert (Hk : bind (int_truediv m 2) (fun h => int_of_float (fceil h)) = Ok ((m + 1) / 2)).
  { destruct m as [ | p | p ]; [reflexivity | | lia].
    unfold int_truediv. cbn [Z.eqb]. rewrite float_of_int_pos by assumption.
    change (float_of_int 2) with (Ok (S754_finite false 4503599627370496 (-51))).
    cbn [bind].
    pose proof (norm53_spec p Hhi) as (Hd & He & _).
    rewrite fdiv_two by assumption. rewrite fceil_half by assumption.
    apply int_of_float_of_Z. exact Hceil. }
  destruct (int_truediv m 2) as [h | e]; [ | discriminate Hk]. cbn [bind] in *.
  rewrite Hk. cbn [bind]. unfold np_full.
  destruct (Z.ltb_spec ((m + 1) / 2) 0); [lia | ].
  destruct (Z.ltb_spec (m / 2) 0); [lia | ]. reflexivity.
Qed.

(** * Facts about the annotated point of [plot2] *)

(** Rounding in the normal range, for any input exponent. *)
Lemma binary_round_aux_normal (sx : bool) (m : positive) (k e : Z) (l : location) :
  Zpos (digits2_pos m) = 53 + k -> 0 <= k -> -1074 <= e + k <= 970 ->
  binary_round_aux prec emax sx (Zpos m) e l =
  let mrs := fst (shr (shr_record_of_loc (Zpos m) l) e k) in
  normalize_carry sx (round_nearest_even (shr_m mrs) (loc_of_shr_record mrs)) (e + k).
Proof.
  intros Hd Hk Hek. unfold binary_round_aux.
  rewrite (shr_fexp_shift m k) by (assumption || lia).
  pose proof (shr_snd (shr_record_of_loc (Zpos m) l) e k Hk) as Hsnd.
  pose proof (shr_fst_m (shr_record_of_loc (Zpos m) l) e k Hk) as Hfst.
  rewrite shr_m_record_of_loc in Hfst. specialize (Hfst ltac:(lia)).
  destruct (shr (shr_record_of_loc (Zpos m) l) e k) as [mrs e'].
  cbn [fst snd] in *. subst e'.
  pose proof (digits2_pos_quotient m k Hd Hk) as Hq. rewrite <- Hfst in Hq.
  pose proof (round_nearest_even_range (shr_m mrs) (loc_of_shr_record mrs)) as Hr.
  apply finish_round; lia.
Qed.

(** Rounding below the normal range: the result is a zero or has the
    smallest exponent. *)
Lemma binary_round_aux_subnormal (sx : bool) (m : positive) (e : Z) :
  e < -1074 -> Zpos (digits2_pos m) + e + 1074 <= 52 ->
  binary_round_aux prec emax sx (Zpos m) e loc_Exact = S754_zero sx \/
  exists m' : positive,
    binary_round_aux prec emax sx (Zpos m) e loc_Exact = S754_finite sx m' (-1074) /\
    Zpos m' <= 2 ^ 52.
Proof.
  intros He Hd. unfold binary_round_aux.
  set (k := -1074 - e). assert (Hk : 0 < k) by (unfold k; lia).
  assert (Hshift : shr_fexp prec emax (Zpos m) e loc_Exact =
                   shr (shr_record_of_loc (Zpos m) loc_Exact) e k).
  { unfold shr_fexp, fexp, emin, prec, emax. cbn [Zdigits2]. f_equal. unfold k. lia. }
  rewrite Hshift.
  pose proof (shr_snd (shr_record_of_loc (Zpos m) loc_Exact) e k ltac:(lia)) as Hsnd.
  pose proof (shr_fst_m (shr_record_of_loc (Zpos m) loc_Exact) e k ltac:(lia)) as Hfst.
  rewrite shr_m_record_of_loc in Hfst. specialize (Hfst ltac:(lia)).
  destruct (shr (shr_record_of_loc (Zpos m) loc_Exact) e k) as [mrs e'].
  cbn [fst snd] in *. subst e'. replace (e + k) with (-1074) by (unfold k; lia).
  assert (Hq : 0 <= shr_m mrs < 2 ^ 52).
  { rewrite Hfst. pose proof (digits2_pos_bounds m) as [_ Hhi].
    assert (0 < 2 ^ k) by (apply Z.pow_pos_nonneg; lia).
    split; [apply Z.div_pos; lia | ].
    apply Z.div_lt_upper_bound; [lia | ].
    rewrite <- Z.pow_add_r by lia.
    eapply Z.lt_le_trans; [exact Hhi | ].
    apply Z.pow_le_mono_r; unfold k; lia. }
  pose proof (round_nearest_even_range (shr_m mrs) (loc_of_shr_record mrs)) as Hr.
  set (r := round_nearest_even (shr_m mrs) (loc_of_shr_record mrs)) in *.
  destruct r as [ | p | p ] eqn:Er; [left; reflexivity | right | lia].
  assert (Hdp : Zpos (digits2_pos p) <= 53).
  { pose proof (digits2_pos_bounds p) as [Hlo _].
    destruct (Z.le_gt_cases (Zpos (digits2_pos p)) 53) as [ | Hgt]; [assumption | ].
    assert (2 ^ 53 <= 2 ^ (Zpos (digits2_pos p) - 1)) by (apply Z.pow_le_mono_r; lia).
    change (2 ^ 53) with (2 * 2 ^ 52) in *. lia. }
  assert (Hshift2 : shr_fexp prec emax (Zpos p) (-1074) loc_Exact =
                    (shr_record_of_loc (Zpos p) loc_Exact, -1074)).
  { unfold shr_fexp, fexp, emin, prec, emax. cbn [Zdigits2].
    replace (Z.max (Zpos (digits2_pos p) + -1074 - 53) (3 - 1024 - 53) - -1074) with 0 by lia.
    reflexivity. }
  rewrite Hshift2. cbn [shr_record_of_loc shr_m].
  exists p. split; [reflexivity | lia].
Qed.

Lemma pow2_lt_inv (a b : Z) : 0 <= b -> 2 ^ a < 2 ^ b -> a < b.
Proof.
  intros Hb H. destruct (Z.lt_ge_cases a b) as [ | Hge]; [assumption | ].
  assert (2 ^ b <= 2 ^ a) by (apply Z.pow_le_mono_r; lia). lia.
Qed.

Lemma int_of_normalize_carry (m e : Z) :
  2 ^ 52 <= m <= 2 ^ 53 -> e <= -49 -> (e = -49 -> m <= 10 * 2 ^ 49) ->
  exists k : Z, int_of_float (normalize_carry false m e) = Ok k /\ 0 <= k <= 10.
Proof.
  intros Hm He Htop. unfold normalize_carry.
  destruct (Z.eqb_spec m (2 ^ 53)) as [E | E].
  - assert (e <= -50).
    { destruct (Z.eq_dec e (-49)) as [E49 | ]; [ | lia].
      specialize (Htop E49). subst m. exfalso. revert Htop. apply Z.lt_nge. reflexivity. }
    cbn [int_of_float]. destruct (Z.leb_spec 0 (e + 1)); [lia | ].
    eexists. split; [reflexivity | ].
    assert (2 ^ 49 <= 2 ^ (- (e + 1))) by (apply Z.pow_le_mono_r; lia).
    change (Zpos (Z.to_pos (2 ^ 52))) with (2 ^ 52).
    split; [apply Z.div_pos; lia | ].
    assert (2 ^ 52 / 2 ^ (- (e + 1)) < 9); [ | lia].
    apply Z.div_lt_upper_bound; [lia | ].
    change (2 ^ 52) with (8 * 2 ^ 49). lia.
  - cbn [int_of_float]. destruct (Z.leb_spec 0 e); [lia | ].
    eexists. split; [reflexivity | ].
    rewrite Z2Pos.id by lia.
    assert (0 < 2 ^ (- e)) by (apply Z.pow_pos_nonneg; lia).
    split; [apply Z.div_pos; lia | ].
    assert (m / 2 ^ (- e) < 11); [ | lia].
    apply Z.div_lt_upper_bound; [lia | ].
    destruct (Z.eq_dec e (-49)) as [E49 | ].
    + specialize (Htop E49). subst e. change (- -49) with 49. lia.
    + assert (2 ^ 50 <= 2 ^ (- e)) by (apply Z.pow_le_mono_r; lia).
      change (2 ^ 53) with (8 * 2 ^ 50) in *. lia.
Qed.

Lemma annotation_index_range (t : float) :
  valid_binary prec emax t = true ->
  fle pos_zero t = true -> fle t one = true ->
  exists k : Z, annotation_index t = Ok k /\ 0 <= k <= 10.
Proof.
  intros Hvalid Hlo Hhi. unfold annotation_index.
  change (float_of_int 10) with (Ok (S754_finite false 5629499534213120 (-49))).
  cbn [bind].
  destruct t as [s | s | | s m e].
  - exists 0. split; [reflexivity | lia].
  - destruct s; discriminate.
  - discriminate.
  - destruct s; [discriminate Hlo | ]. clear Hlo.
    (* validity and the bound by one, in arithmetic *)
    cbn [valid_binary] in Hvalid. unfold bounded, canonical_mantissa in Hvalid.
    apply andb_prop in Hvalid. destruct Hvalid as [Hcan _].
    apply Z.eqb_eq in Hcan. unfold fexp, emin, prec, emax in Hcan.
    pose proof (digits2_pos_bounds m) as [Hmlo Hmhi].
    set (dm := Zpos (digits2_pos m)) in *.
    assert (Hdm : 0 < dm) by (unfold dm; lia).
    assert (He : e < -52 \/ (e = -52 /\ Zpos m <= 2 ^ 52)).
    { unfold fle, SFleb, one in Hhi. cbn [SFcompare] in Hhi.
      destruct (Z.compare_spec e (-52)) as [E | E | E]; [ | left; lia | discriminate Hhi].
      right. split; [exact E | ].
      change (2 ^ 52) with (Zpos 4503599627370496).
      pose proof (Pos.compare_spec m 4503599627370496) as Hc.
      unfold Pos.compare in Hc. revert Hhi.
      destruct Hc as [Hc | Hc | Hc]; intro Hhi; try discriminate Hhi.
      - rewrite Hc. apply Z.le_refl.
      - apply Z.lt_le_incl. exact Hc. }
    destruct He as [He | [He Hm]].
    2:{ (* the threshold is 1.0 *)
      assert (Edm : dm = 53) by lia.
      rewrite Edm in Hmlo. change (2 ^ (53 - 1)) with (2 ^ 52) in Hmlo.
      assert (Em : m = 4503599627370496%positive) by (apply Pos2Z.inj, Z.le_antisymm; assumption).
      clear - He Em. subst m e. exists 10. split; [vm_compute; reflexivity | lia]. }
    unfold fmul, SFmul. cbn [xorb].
    set (M := (m * 5629499534213120)%positive).
    assert (HM : Zpos M = Zpos m * (5 * 2 ^ 50)) by reflexivity.
    pose proof (digits2_pos_bounds M) as [HMlo HMhi].
    set (d := Zpos (digits2_pos M)) in *.
    assert (Hd0 : 0 < d) by (unfold d; lia).
    assert (Hdhi : d <= dm + 53).
    { assert (2 ^ (d - 1) < 2 ^ (dm + 53)); [ | apply pow2_lt_inv in H; lia].
      eapply Z.le_lt_trans; [exact HMlo | ].
      rewrite HM, Z.pow_add_r by lia. change (2 ^ 53) with (8 * 2 ^ 50). nia. }
    assert (Hdlo : dm + 52 <= d).
    { assert (2 ^ (dm + 51) < 2 ^ d); [ | apply pow2_lt_inv in H; lia].
      eapply Z.le_lt_trans; [ | exact HMhi ].
      replace (dm + 51) with ((dm - 1) + 52) by lia.
      rewrite HM, Z.pow_add_r by lia. change (2 ^ 52) with (4 * 2 ^ 50). nia. }
    destruct (Z_le_dec (-1074) (d + (e + -49) - 53)) as [Hnorm | Hsub].
    + (* the product is in the normal range *)
      assert (Hk : 0 <= d - 53) by lia.
      rewrite (binary_round_aux_normal false M (d - 53) (e + -49))
        by (fold d; lia).
      cbv zeta.
      pose proof (shr_fst_m (shr_record_of_loc (Zpos M) loc_Exact) (e + -49) (d - 53) Hk) as Hfst.
      rewrite shr_m_record_of_loc in Hfst. specialize (Hfst ltac:(lia)).
      set (mrs := fst (shr (shr_record_of_loc (Zpos M) loc_Exact) (e + -49) (d - 53))) in *.
      pose proof (digits2_pos_quotient M (d - 53) ltac:(fold d; lia) Hk) as Hq.
      rewrite <- Hfst in Hq.
      pose proof (round_nearest_even_range (shr_m mrs) (loc_of_shr_record mrs)) as Hr.
      apply int_of_normalize_carry; [lia | lia | ].
      intro Etop.
      assert (d = 106) by lia. assert (e = -53) by lia.
      assert (Hq' : shr_m mrs < 10 * 2 ^ 49); [ | lia].
      rewrite Hfst. replace (d - 53) with 53 by lia.
      apply Z.div_lt_upper_bound; [reflexivity | ].
      assert (Zpos m < 2 ^ 53).
      { eapply Z.lt_le_trans; [exact Hmhi | ]. apply Z.pow_le_mono_r; lia. }
      rewrite HM. change (2 ^ 53) with (8 * 2 ^ 50) in *.
      change (2 ^ 49) with (2 ^ 49) in *.
      replace (8 * 2 ^ 50 * (10 * 2 ^ 49)) with ((5 * 2 ^ 50) * (8 * 2 ^ 50))
        by reflexivity.
      nia.
    + (* the product is below the normal range *)
      assert (Esub : e = -1074) by lia.
      destruct (binary_round_aux_subnormal false M (e + -49)) as [Hz | (m' & Hf & Hm')];
        [lia | fold d; lia | | ].
      * rewrite Hz. exists 0. split; [reflexivity | lia].
      * rewrite Hf. cbn [int_of_float]. exists 0. split; [ | lia].
        change (0 <=? -1074) with false. cbv iota. f_equal.
        apply Z.div_small. split; [lia | ].
        eapply Z.le_lt_trans; [exact Hm' | ]. reflexivity.
Qed.

Lemma getitem_in_range {A : Type} (l : list A) (k : Z) (d : A) :
  0 <= k < Z.of_nat (length l) -> getitem l k = Ok (nth (Z.to_nat k) l d).
Proof.
  intros [Hlo Hhi]. unfold getitem, norm_index.
  destruct (Z.leb_spec 0 k); [ | lia]. destruct (Z.ltb_spec k (Z.of_nat (length l))); [ | lia].
  cbn [andb bind].
  destruct (nth_error l (Z.to_nat k)) as [a | ] eqn:E.
  - f_equal. symmetry. apply nth_error_nth. exact E.
  - apply nth_error_None in E. lia.
Qed.

Lemma annotation_index_threshold (i : nat) :
  (i < 11)%nat -> annotation_index (threshold_at i) = Ok (Z.of_nat i).
Proof.
  intro Hi. do 11 (destruct i as [ | i ]; [vm_compute; reflexivity | ]). lia.
Qed.

Lemma plot2_equal_length (probabilities : list float) (labels : list Z)
    (tpr fpr : list float) (threshold : float) (area : bool) (k : Z) :
  length probabilities = length labels ->
  annotation_index threshold = Ok k ->
  0 <= k < Z.of_nat (length fpr) -> 0 <= k < Z.of_nat (length tpr) ->
  exists pos neg : list float,
    bool_mask probabilities (map (Z.eqb 1) labels) = Ok pos /\
    bool_mask probabilities (map (Z.eqb 0) labels) = Ok neg /\
    plot2 probabilities labels tpr fpr threshold area =
    Ok {| hist_positive := pos; hist_negative := neg;
          roc_x := fpr; roc_y := tpr; roc_filled := area;
          diagonal := rand_series (length tpr);
          annotation_x := nth (Z.to_nat k) fpr S754_nan;
          annotation_y := nth (Z.to_nat k) tpr S754_nan |}.
Proof.
  intros Hlen Hk Hf Ht. unfold plot2, bool_mask.
  rewrite !length_map, Hlen, Nat.eqb_refl. cbn [bind]. rewrite Hk. cbn [bind].
  rewrite (getitem_in_range fpr k S754_nan Hf), (getitem_in_range tpr k S754_nan Ht).
  cbn [bind]. eexists. eexists. repeat split.
Qed.

(** * Facts about the page *)

Lemma page_data_spec {rng_state : Type} (seed : Z -> rng_state)
    (draw : rng_state -> float * rng_state) (m : Z) (X : ndarray) (st : rng_state) :
  0 <= m < 2 ^ 53 -> ndim X = 2%nat ->
  exists (probs : list float) (labels : list Z) (st' : rng_state),
    page_data seed draw m X st = (Ok (probs, labels), st') /\
    labels = repeat 1 (Z.to_nat ((m + 1) / 2)) ++ repeat 0 (Z.to_nat (m / 2)) /\
    length probs = length labels.
Proof.
  intros Hm HX. unfold page_data. rewrite (page_labels_spec m Hm).
  rewrite (predict_2d seed draw page_clf X _ st HX).
  eexists. eexists. eexists. split; [reflexivity | ]. split; [reflexivity | ].
  destruct (count_label_blocks (Z.to_nat ((m + 1) / 2)) (Z.to_nat (m / 2))) as [-> ->].
  rewrite !length_app, !scale_length, !randn_length, !repeat_length. reflexivity.
Qed.

Lemma page_split_sum (m : Z) :
  0 <= m -> 0 <= m / 2 /\ 0 <= (m + 1) / 2 /\ (m + 1) / 2 + m / 2 = m.
Proof.
  intro Hm. split; [apply Z.div_pos; lia | ]. split; [apply Z.div_pos; lia | ].
  pose proof (Z.div_mod m 2 ltac:(lia)). pose proof (Z.mod_pos_bound m 2 ltac:(lia)).
  assert (Hc : m mod 2 = 0 \/ m mod 2 = 1) by lia.
  destruct Hc as [E | E]; rewrite E in *.
  - replace ((m + 1) / 2) with (m / 2); [lia | apply Z.div_unique with 1; lia].
  - replace ((m + 1) / 2) with (m / 2 + 1); [lia | apply Z.div_unique with 0; lia].
Qed.

Lemma page_labels_facts (m : Z) :
  0 <= m < 2 ^ 53 ->
  let labels := repeat 1 (Z.to_nat ((m + 1) / 2)) ++ repeat 0 (Z.to_nat (m / 2)) in
  Forall is_bit labels /\ Z.of_nat (length labels) = m /\
  Z.of_nat (count_label 1 labels) = (m + 1) / 2 /\
  Z.of_nat (count_label 0 labels) = m / 2.
Proof.
  intros Hm labels. destruct (page_split_sum m ltac:(lia)) as (H0 & H1 & Hsum).
  unfold labels.
  destruct (count_label_blocks (Z.to_nat ((m + 1) / 2)) (Z.to_nat (m / 2))) as [-> ->].
  split; [ | split; [rewrite length_app, !repeat_length; lia | lia] ].
  apply Forall_app. split; apply Forall_forall; intros x Hx;
    apply repeat_spec in Hx; subst x; [right | left]; reflexivity.
Qed.

(** * Rounding is monotone *)

Lemma round_nearest_even_mono (m1 m2 : Z) (l1 l2 : location) :
  m1 < m2 \/ (m1 = m2 /\ loc_rank l1 <= loc_rank l2) ->
  round_nearest_even m1 l1 <= round_nearest_even m2 l2.
Proof.
  intros [Hlt | [-> Hr]].
  - pose proof (round_nearest_even_range m1 l1). pose proof (round_nearest_even_range m2 l2). lia.
  - destruct l1 as [ | [ | | ] ], l2 as [ | [ | | ] ]; cbn [round_nearest_even loc_rank] in *;
      try lia; destruct (Z.even m2); lia.
Qed.

Lemma new_location_rank (d r : Z) :
  0 < d -> 0 <= r < d ->
  loc_rank (new_location d r) =
  if r =? 0 then 0 else match 2 * r ?= d with Lt => 1 | Eq => 2 | Gt => 3 end.
Proof.
  intros Hd Hr. unfold new_location, new_location_even, new_location_odd.
  destruct r as [ | p | p ]; [destruct (Z.even d); reflexivity | | lia].
  cbn [Z.eqb]. change (IntDef.Z.eqb (Zpos p) 0) with false. cbv iota.
  destruct (Z.even d) eqn:Ev; cbn [loc_rank].
  - destruct (2 * Zpos p ?= d); reflexivity.
  - assert (Hodd : Z.odd d = true) by (rewrite <- Z.negb_even, Ev; reflexivity).
    apply Z.odd_spec in Hodd. destruct Hodd as [k Hk].
    destruct (Z.compare_spec (2 * Zpos p + 1) d), (Z.compare_spec (2 * Zpos p) d);
      try reflexivity; lia.
Qed.

Lemma shifted_rank (q : Z) (l : location) :
  0 <= q ->
  loc_rank (loc_of_shr_record (shr_1 (shr_record_of_loc q l))) =
  2 * (q mod 2) + (if loc_rank l =? 0 then 0 else 1).
Proof.
  intro Hq.
  assert (Hodd : Z.odd q = true /\ q mod 2 = 1 \/ Z.odd q = false /\ q mod 2 = 0).
  { rewrite Zmod_odd. destruct (Z.odd q); [left | right]; split; reflexivity. }
  destruct l as [ | [ | | ] ]; cbn [shr_record_of_loc]; rewrite shr_1_value by assumption;
    cbn [loc_of_shr_record orb loc_rank Z.eqb];
    destruct Hodd as [[-> ->] | [-> ->]]; reflexivity.
Qed.

Lemma fle_finite (p1 p2 : positive) (e1 e2 : Z) :
  e1 < e2 \/ (e1 = e2 /\ Zpos p1 <= Zpos p2) ->
  fle (S754_finite false p1 e1) (S754_finite false p2 e2) = true.
Proof.
  intro H. unfold fle, SFleb. cbn [SFcompare].
  destruct (Z.compare_spec e1 e2) as [E | E | E]; [ | reflexivity | lia].
  destruct H as [H | [_ H]]; [lia | ].
  pose proof (Pos.compare_spec p1 p2) as Hc. unfold Pos.compare in Hc.
  destruct Hc as [Hc | Hc | Hc]; try reflexivity.
  exfalso. apply Z.le_ngt in H. apply H. exact Hc.
Qed.

Lemma normalize_carry_le (x1 x2 e1 e2 : Z) :
  2 ^ 52 <= x1 <= 2 ^ 53 -> 2 ^ 52 <= x2 <= 2 ^ 53 ->
  e1 < e2 \/ (e1 = e2 /\ x1 <= x2) ->
  fle (normalize_carry false x1 e1) (normalize_carry false x2 e2) = true.
Proof.
  intros H1 H2 H. unfold normalize_carry.
  assert (P52 : Zpos (Z.to_pos (2 ^ 52)) = 2 ^ 52) by reflexivity.
  destruct (Z.eqb_spec x1 (2 ^ 53)) as [E1 | E1], (Z.eqb_spec x2 (2 ^ 53)) as [E2 | E2];
    apply fle_finite; rewrite ?P52, ?Z2Pos.id by lia; lia.
Qed.

Lemma rem_rank_range (d r : Z) : 0 <= rem_rank d r <= 3.
Proof. unfold rem_rank. destruct (r =? 0), (2 * r ?= d); lia. Qed.

Lemma rem_rank_zero (d r : Z) : rem_rank d r = 0 <-> r = 0.
Proof.
  unfold rem_rank. destruct (Z.eqb_spec r 0); [tauto | ].
  destruct (2 * r ?= d); split; (lia || tauto).
Qed.

Lemma rem_rank_mono (d r1 r2 : Z) :
  0 <= r1 <= r2 -> rem_rank d r1 <= rem_rank d r2.
Proof.
  intro H. unfold rem_rank.
  destruct (Z.eqb_spec r1 0), (Z.eqb_spec r2 0); try lia.
  - destruct (2 * r2 ?= d); lia.
  - destruct (Z.compare_spec (2 * r1) d), (Z.compare_spec (2 * r2) d); lia.
Qed.

Lemma rem_rank_above (d r : Z) : 0 < d -> d < 2 * r -> rem_rank d r = 3.
Proof.
  intros Hd H. unfold rem_rank. destruct (Z.eqb_spec r 0); [lia | ].
  destruct (Z.compare_spec (2 * r) d); lia.
Qed.

Lemma quotient_order (d a b qa ra qb rb : Z) :
  0 < d -> a = d * qa + ra -> 0 <= ra < d -> b = d * qb + rb -> 0 <= rb < d ->
  a <= b -> qa < qb \/ (qa = qb /\ ra <= rb).
Proof.
  intros Hd Ha Hra Hb Hrb Hab.
  destruct (Z.lt_trichotomy qa qb) as [H | [H | H]]; [left; exact H | right | exfalso].
  - subst qb. split; [reflexivity | lia].
  - assert (d * (qb + 1) <= d * qa) by (apply Z.mul_le_mono_nonneg_l; lia). lia.
Qed.

Lemma half_order (qa qb sa sb : Z) :
  0 <= qa -> 0 <= sa <= 1 -> 0 <= sb <= 1 ->
  qa < qb \/ (qa = qb /\ sa <= sb) ->
  qa / 2 < qb / 2 \/
  (qa / 2 = qb / 2 /\ 2 * (qa mod 2) + sa <= 2 * (qb mod 2) + sb).
Proof.
  intros Hq Hsa Hsb H.
  pose proof (Z.div_mod qa 2 ltac:(lia)). pose proof (Z.mod_pos_bound qa 2 ltac:(lia)).
  pose proof (Z.div_mod qb 2 ltac:(lia)). pose proof (Z.mod_pos_bound qb 2 ltac:(lia)).
  lia.
Qed.

Lemma half_against_next (d a b qa ra qb rb : Z) :
  0 < d -> a = d * qa + ra -> 0 <= ra < d -> b = d * qb + rb -> 0 <= rb < d ->
  0 <= qa -> a < 2 * b ->
  qa / 2 < qb \/
  (qa / 2 = qb /\ 2 * (qa mod 2) + (if ra =? 0 then 0 else 1) <= rem_rank d rb).
Proof.
  intros Hd Ha Hra Hb Hrb Hq Hab.
  pose proof (Z.div_mod qa 2 ltac:(lia)) as Hdm.
  pose proof (Z.mod_pos_bound qa 2 ltac:(lia)) as Hmb.
  set (mu := qa / 2) in *. set (beta := qa mod 2) in *.
  assert (Hmu : mu <= qb).
  { destruct (Z.le_gt_cases mu qb) as [ | Hgt]; [assumption | exfalso].
    assert (d * (2 * (qb + 1)) <= d * qa) by (apply Z.mul_le_mono_nonneg_l; lia).
    lia. }
  destruct (Z.eq_dec mu qb) as [E | E]; [right | left; lia].
  split; [exact E | ].
  assert (Hkey : beta * d + ra < 2 * rb).
  { subst qb. rewrite Hdm in Ha.
    replace (d * (2 * mu + beta)) with (2 * (d * mu) + beta * d) in Ha by ring. lia. }
  assert (Hb01 : beta = 0 \/ beta = 1) by lia.
  destruct Hb01 as [-> | ->].
  - destruct (Z.eqb_spec ra 0) as [E0 | E0]; [pose proof (rem_rank_range d rb); lia | ].
    assert (rem_rank d rb <> 0) by (rewrite rem_rank_zero; lia).
    pose proof (rem_rank_range d rb). lia.
  - rewrite (rem_rank_above d rb) by lia. destruct (ra =? 0); lia.
Qed.

Lemma sticky_of_rank (d r : Z) :
  (if rem_rank d r =? 0 then 0 else 1) = (if r =? 0 then 0 else 1).
Proof.
  pose proof (rem_rank_zero d r) as H.
  destruct (Z.eqb_spec (rem_rank d r) 0), (Z.eqb_spec r 0); tauto || reflexivity.
Qed.

Lemma fdiv_monotone (ma mb md : positive) (ea eb ed : Z) :
  Zpos (digits2_pos ma) = 53 -> Zpos (digits2_pos mb) = 53 ->
  Zpos (digits2_pos md) = 53 ->
  -1021 <= ea - ed -> eb - ed <= 1021 ->
  ea < eb \/ (ea = eb /\ Zpos ma <= Zpos mb) ->
  fle (fdiv (S754_finite false ma ea) (S754_finite false md ed))
      (fdiv (S754_finite false mb eb) (S754_finite false md ed)) = true.
Proof.
  intros Ha Hb Hd Hlo Hhi Hord.
  assert (Hle : ea <= eb) by lia.
  rewrite !fdiv_finite by (assumption || lia). cbv zeta. cbn [xorb].
  pose proof (fdiv_quotient_bounds ma md Ha Hd) as Hqa.
  pose proof (fdiv_quotient_bounds mb md Hb Hd) as Hqb.
  pose proof (digits2_pos_bounds ma) as [La Ua]. rewrite Ha in La, Ua.
  pose proof (digits2_pos_bounds mb) as [Lb Ub]. rewrite Hb in Lb, Ub.
  change (53 - 1) with 52 in *.
  set (D := Zpos md) in *. assert (HD : 0 < D) by (unfold D; lia).
  set (A := Zpos ma * 2 ^ 53) in *. set (B := Zpos mb * 2 ^ 53) in *.
  pose proof (Z.div_mod A D ltac:(lia)) as HA.
  pose proof (Z.mod_pos_bound A D HD) as HrA.
  pose proof (Z.div_mod B D ltac:(lia)) as HB.
  pose proof (Z.mod_pos_bound B D HD) as HrB.
  pose proof (new_location_rank D (A mod D) HD HrA) as Rla. fold (rem_rank D (A mod D)) in Rla.
  pose proof (new_location_rank D (B mod D) HD HrB) as Rlb. fold (rem_rank D (B mod D)) in Rlb.
  set (qa := A / D) in *. set (ra := A mod D) in *.
  set (qb := B / D) in *. set (rb := B mod D) in *.
  set (la := new_location D ra) in *. set (lb := new_location D rb) in *.
  pose proof (shr_1_of_loc qa la ltac:(lia)) as Ma.
  pose proof (shr_1_of_loc qb lb ltac:(lia)) as Mb.
  pose proof (shifted_rank qa la ltac:(lia)) as Sa.
  pose proof (shifted_rank qb lb ltac:(lia)) as Sb.
  rewrite Rla, sticky_of_rank in Sa. rewrite Rlb, sticky_of_rank in Sb.
  set (mrsa := shr_1 (shr_record_of_loc qa la)) in *.
  set (mrsb := shr_1 (shr_record_of_loc qb lb)) in *.
  pose proof (round_nearest_even_range qa la) as Ra1.
  pose proof (round_nearest_even_range qb lb) as Rb1.
  rewrite Ma, Mb.
  pose proof (round_nearest_even_range (qa / 2) (loc_of_shr_record mrsa)) as Ra2.
  pose proof (round_nearest_even_range (qb / 2) (loc_of_shr_record mrsb)) as Rb2.
  assert (Hha : 2 ^ 53 <= qa -> 2 ^ 52 <= qa / 2 < 2 ^ 53).
  { intro. split; [apply Z.div_le_lower_bound | apply Z.div_lt_upper_bound]; lia. }
  assert (Hhb : 2 ^ 53 <= qb -> 2 ^ 52 <= qb / 2 < 2 ^ 53).
  { intro. split; [apply Z.div_le_lower_bound | apply Z.div_lt_upper_bound]; lia. }
  assert (Hsame : ea = eb -> qa < qb \/ (qa = qb /\ ra <= rb)).
  { intro E. apply (quotient_order D A B qa ra qb rb); try assumption.
    unfold A, B. apply Z.mul_le_mono_nonneg_r; lia. }
  assert (Hsticky : ra <= rb -> 0 <= ra ->
            (if ra =? 0 then 0 else 1) <= (if rb =? 0 then 0 else 1)).
  { intros. destruct (Z.eqb_spec ra 0), (Z.eqb_spec rb 0); lia. }
  destruct (Z.ltb_spec qa (2 ^ 53)) as [Qa | Qa], (Z.ltb_spec qb (2 ^ 53)) as [Qb | Qb].
  - (* neither quotient needs a shift *)
    apply normalize_carry_le; [lia | lia | ].
    destruct (Z.eq_dec ea eb) as [E | E]; [right | left; lia].
    split; [lia | ]. apply round_nearest_even_mono.
    destruct (Hsame E) as [H | [H1 H2]]; [left; exact H | right].
    split; [exact H1 | ]. rewrite Rla, Rlb. apply rem_rank_mono. lia.
  - (* only the larger quotient is shifted *)
    specialize (Hhb Qb).
    apply normalize_carry_le; [lia | lia | left; lia].
  - (* only the smaller quotient is shifted *)
    specialize (Hha Qa).
    destruct (Z.eq_dec ea eb) as [E | E]; [destruct (Hsame E); lia | ].
    apply normalize_carry_le; [lia | lia | ].
    destruct (Z.eq_dec (ea + 1) eb) as [E1 | E1]; [right | left; lia].
    split; [lia | ]. apply round_nearest_even_mono.
    rewrite Sa, Rlb.
    apply (half_against_next D A B qa ra qb rb); try assumption; lia.
  - (* both quotients are shifted *)
    specialize (Hha Qa). specialize (Hhb Qb).
    apply normalize_carry_le; [lia | lia | ].
    destruct (Z.eq_dec ea eb) as [E | E]; [right | left; lia].
    split; [lia | ]. apply round_nearest_even_mono.
    rewrite Sa, Sb.
    specialize (Hsame E).
    apply half_order; [lia | destruct (ra =? 0); lia | destruct (rb =? 0); lia | ].
    destruct Hsame as [H | [H1 H2]]; [left; exact H | right].
    split; [exact H1 | apply Hsticky; lia].
Qed.

Lemma rate_monotone (a b oa ob : Z) :
  0 <= a <= b -> 0 <= oa -> 0 <= ob -> a + oa = b + ob -> b + ob < 2 ^ 53 ->
  exists ra rb : float,
    rate a oa = Ok ra /\ rate b ob = Ok rb /\ fle ra rb = true.
Proof.
  intros Hab Hoa Hob Hsum Hs.
  destruct (rate_unit b ob ltac:(lia) Hob Hs) as (rb & Hrb & Hub & _).
  destruct (Z.eq_dec a 0) as [Ea | Ea].
  - subst a. exists pos_zero, rb. rewrite rate_none by lia. repeat split; assumption.
  - rewrite !rate_formula in * by lia. injection Hrb as <-. clear Hub.
    rewrite <- Hsum. do 2 eexists. split; [reflexivity | ]. split; [reflexivity | ].
    destruct a as [ | pa | pa ]; [lia | | lia].
    destruct b as [ | pb | pb ]; [lia | | lia].
    assert (Hsp : 0 < Zpos pa + oa) by lia.
    destruct (Zpos pa + oa) as [ | ps | ps ] eqn:Es; [lia | | lia].
    unfold of_Z. rewrite !binary_normalize_int by lia.
    pose proof (norm53_spec pa ltac:(lia)) as (Da & Ea' & _).
    pose proof (norm53_spec pb ltac:(lia)) as (Db & Eb' & _).
    pose proof (norm53_spec ps ltac:(lia)) as (Ds & Es' & _).
    pose proof (norm53_monotone pa pb ltac:(lia) ltac:(lia)) as (Hexp & Hman).
    rewrite fadd_eps_absorbed by assumption.
    apply fdiv_monotone; [assumption | assumption | assumption | lia | lia | ].
    destruct (Z.eq_dec (snd (norm53 pa)) (snd (norm53 pb))) as [E | E]; [right | left; lia].
    split; [exact E | apply (Hman E)].
Qed.

Lemma count_samples_mono (label : Z) (scores : list float) (labels : list Z)
    (t1 t2 : float) :
  fle t1 t2 = true ->
  count_samples label true scores labels t2 <= count_samples label true scores labels t1.
Proof.
  intro Ht. unfold count_samples. apply Nat2Z.inj_le, filter_length_mono.
  intros [l s] _. cbn [fst snd]. destruct (l =? label); cbn [andb]; [ | discriminate].
  destruct (fge s t2) eqn:E2; cbn [Bool.eqb]; [ | discriminate].
  intros _. rewrite (fge_fle_trans s t1 t2 Ht E2). reflexivity.
Qed.

Lemma loop_rates_monotone (scores : list float) (labels : list Z) (t1 t2 : float) :
  Forall is_bit labels -> Z.of_nat (length labels) < 2 ^ 53 -> fle t1 t2 = true ->
  exists tpr1 fpr1 tpr2 fpr2 : float,
    bind (confusion_loop scores labels t1) rates = Ok (tpr1, fpr1) /\
    bind (confusion_loop scores labels t2) rates = Ok (tpr2, fpr2) /\
    fle tpr2 tpr1 = true /\ fle fpr2 fpr1 = true.
Proof.
  intros Hl Hn Ht. rewrite !rates_of_loop by assumption.
  assert (Hrate : forall label, exists r1 r2 : float,
            rate (count_samples label true scores labels t1)
                 (count_samples label false scores labels t1) = Ok r1 /\
            rate (count_samples label true scores labels t2)
                 (count_samples label false scores labels t2) = Ok r2 /\
            fle r2 r1 = true).
  { intro label.
    pose proof (count_samples_mono label scores labels t1 t2 Ht).
    pose proof (count_samples_row label scores labels t1) as R1.
    pose proof (count_samples_row label scores labels t2) as R2.
    pose proof (count_samples_row_bound label scores labels t1).
    destruct (rate_monotone (count_samples label true scores labels t2)
                (count_samples label true scores labels t1)
                (count_samples label false scores labels t2)
                (count_samples label false scores labels t1))
      as (r2 & r1 & H2 & H1 & Hle);
      try apply count_samples_nonneg; try lia.
    - split; [apply count_samples_nonneg | assumption].
    - exists r1, r2. repeat split; assumption. }
  destruct (Hrate 1) as (a1 & a2 & -> & -> & Ha).
  destruct (Hrate 0) as (b1 & b2 & -> & -> & Hb).
  exists a1, b1, a2, b2. cbn [bind]. repeat split; assumption.
Qed.

Lemma thresholds_ordered (i j : nat) :
  (i <= j < 11)%nat -> fle (threshold_at i) (threshold_at j) = true.
Proof.
  intros [Hij Hj].
  assert (Hall : forallb (fun a => forallb (fun b =>
            if (a <=? b)%nat then fle (threshold_at a) (threshold_at b) else true)
            (seq 0 11)) (seq 0 11) = true) by (vm_compute; reflexivity).
  rewrite forallb_forall in Hall.
  specialize (Hall i ltac:(apply in_seq; lia)).
  rewrite forallb_forall in Hall.
  specialize (Hall j ltac:(apply in_seq; lia)).
  destruct (Nat.leb_spec i j); [assumption | lia].
Qed.

(** * Further properties of the code *)

(** X1. Each cell of the matrix the loop builds is the number of zipped
    samples with that label and that prediction, and the row sums do not
    depend on the threshold: row 1 holds the samples labelled 1, row 0 those
    labelled 0. *)
Theorem cells_are_sample_counts (scores : list float) (labels : list Z) (t : float) :
  Forall is_bit labels ->
  confusion_loop scores labels t =
    Ok [[count_samples 0 false scores labels t; count_samples 0 true scores labels t];
        [count_samples 1 false scores labels t; count_samples 1 true scores labels t]] /\
  count_samples 1 true scores labels t + count_samples 1 false scores labels t =
    Z.of_nat (count_label 1 (firstn (length scores) labels)) /\
  count_samples 0 true scores labels t + count_samples 0 false scores labels t =
    Z.of_nat (count_label 0 (firstn (length scores) labels)).
Proof.
  intro Hl. split; [apply confusion_loop_counts; assumption | ].
  split; apply count_samples_row.
Qed.

Lemma cells_are_sample_counts_witness :
  Forall is_bit [1; 0; 1] /\
  confusion_loop example_scores [1; 0; 1] (decimal 5 10) =
    Ok [[count_samples 0 false example_scores [1; 0; 1] (decimal 5 10);
         count_samples 0 true example_scores [1; 0; 1] (decimal 5 10)];
        [count_samples 1 false example_scores [1; 0; 1] (decimal 5 10);
         count_samples 1 true example_scores [1; 0; 1] (decimal 5 10)]] /\
  count_samples 1 true example_scores [1; 0; 1] (decimal 5 10)
  + count_samples 1 false example_scores [1; 0; 1] (decimal 5 10) = 2.
Proof.
  split; [bits | ].
  destruct (cells_are_sample_counts example_scores [1; 0; 1] (decimal 5 10)) as (H1 & H2 & _);
    [bits | ].
  split; [exact H1 | exact H2].
Defined.

(** X2. Raising the threshold never adds a predicted positive: for
    [t1 <= t2] the cells TP and FP at [t2] are at most those at [t1], TN and
    FN at least those at [t1], and each row keeps its sum. *)
Theorem counts_monotone_in_threshold (scores : list float) (labels : list Z)
    (t1 t2 : float) :
  Forall is_bit labels -> fle t1 t2 = true ->
  exists tn1 fp1 fn1 tp1 tn2 fp2 fn2 tp2 : Z,
    confusion_loop scores labels t1 = Ok [[tn1; fp1]; [fn1; tp1]] /\
    confusion_loop scores labels t2 = Ok [[tn2; fp2]; [fn2; tp2]] /\
    tp2 <= tp1 /\ fp2 <= fp1 /\ tn1 <= tn2 /\ fn1 <= fn2 /\
    tp1 + fn1 = tp2 + fn2 /\ fp1 + tn1 = fp2 + tn2.
Proof.
  intros Hl Ht.
  assert (Hmono : forall label,
            count_samples label true scores labels t2 <= count_samples label true scores labels t1).
  { intro label. unfold count_samples. apply Nat2Z.inj_le, filter_length_mono.
    intros [l s] _. cbn [fst snd]. destruct (l =? label); cbn [andb]; [ | discriminate].
    destruct (fge s t2) eqn:E2; cbn [Bool.eqb]; [ | discriminate].
    intros _. rewrite (fge_fle_trans s t1 t2 Ht E2). reflexivity. }
  pose proof (count_samples_row 1 scores labels t1).
  pose proof (count_samples_row 1 scores labels t2).
  pose proof (count_samples_row 0 scores labels t1).
  pose proof (count_samples_row 0 scores labels t2).
  pose proof (Hmono 1). pose proof (Hmono 0).
  do 8 eexists.
  split; [apply confusion_loop_counts; assumption | ].
  split; [apply confusion_loop_counts; assumption | ].
  repeat split; lia.
Qed.

Lemma counts_monotone_in_threshold_witness :
  Forall is_bit [1; 1; 0; 0] /\ fle (decimal 2 10) (decimal 5 10) = true /\
  exists tn1 fp1 fn1 tp1 tn2 fp2 fn2 tp2 : Z,
    confusion_loop example_scores [1; 1; 0; 0] (decimal 2 10) = Ok [[tn1; fp1]; [fn1; tp1]] /\
    confusion_loop example_scores [1; 1; 0; 0] (decimal 5 10) = Ok [[tn2; fp2]; [fn2; tp2]] /\
    tp2 <= tp1 /\ fp2 <= fp1 /\ tn1 <= tn2 /\ fn1 <= fn2 /\
    tp1 + fn1 = tp2 + fn2 /\ fp1 + tn1 = fp2 + tn2.
Proof.
  split; [bits | ]. split; [reflexivity | ].
  apply (counts_monotone_in_threshold example_scores [1; 1; 0; 0]); [bits | reflexivity].
Defined.

(** X3. The matrix does not depend on the order of the samples: two inputs
    whose zipped [(label, score)] pairs are permutations of each other give
    the same matrix, hence the same rates. *)
Theorem sample_order_is_irrelevant (scores scores' : list float)
    (labels labels' : list Z) (t : float) :
  Forall is_bit labels -> Forall is_bit labels' ->
  Permutation (combine labels scores) (combine labels' scores') ->
  confusion_loop scores labels t = confusion_loop scores' labels' t /\
  bind (confusion_loop scores labels t) rates =
  bind (confusion_loop scores' labels' t) rates.
Proof.
  intros Hl Hl' Hp.
  assert (E : confusion_loop scores labels t = confusion_loop scores' labels' t).
  { rewrite !confusion_loop_counts by assumption. unfold count_samples.
    repeat (rewrite (filter_length_perm _ _ _ Hp)). reflexivity. }
  split; [exact E | rewrite E; reflexivity].
Qed.

Lemma sample_order_is_irrelevant_witness :
  Forall is_bit [1; 0] /\ Forall is_bit [0; 1] /\
  Permutation (combine [1; 0] [decimal 9 10; decimal 1 10])
              (combine [0; 1] [decimal 1 10; decimal 9 10]) /\
  confusion_loop [decimal 9 10; decimal 1 10] [1; 0] (decimal 5 10) =
  confusion_loop [decimal 1 10; decimal 9 10] [0; 1] (decimal 5 10).
Proof.
  split; [bits | ]. split; [bits | ]. split; [apply perm_swap | ].
  apply (sample_order_is_irrelevant [decimal 9 10; decimal 1 10] [decimal 1 10; decimal 9 10]
           [1; 0] [0; 1] (decimal 5 10)); [bits | bits | apply perm_swap].
Defined.

(** X4. The matrix of two sample sets put one after the other is the
    cell-wise sum of their matrices. *)
Theorem matrix_of_concatenation (scores1 scores2 : list float)
    (labels1 labels2 : list Z) (t : float) :
  length scores1 = length labels1 ->
  Forall is_bit labels1 -> Forall is_bit labels2 ->
  exists tn1 fp1 fn1 tp1 tn2 fp2 fn2 tp2 : Z,
    confusion_loop scores1 labels1 t = Ok [[tn1; fp1]; [fn1; tp1]] /\
    confusion_loop scores2 labels2 t = Ok [[tn2; fp2]; [fn2; tp2]] /\
    confusion_loop (scores1 ++ scores2) (labels1 ++ labels2) t =
      Ok [[tn1 + tn2; fp1 + fp2]; [fn1 + fn2; tp1 + tp2]].
Proof.
  intros Hlen H1 H2. do 8 eexists.
  split; [apply confusion_loop_counts; assumption | ].
  split; [apply confusion_loop_counts; assumption | ].
  rewrite confusion_loop_counts by (apply Forall_app; split; assumption).
  rewrite !count_samples_app by assumption. reflexivity.
Qed.

Lemma matrix_of_concatenation_witness :
  length [decimal 9 10] = length [1] /\ Forall is_bit [1] /\ Forall is_bit [0; 0] /\
  exists tn1 fp1 fn1 tp1 tn2 fp2 fn2 tp2 : Z,
    confusion_loop [decimal 9 10] [1] (decimal 5 10) = Ok [[tn1; fp1]; [fn1; tp1]] /\
    confusion_loop [decimal 8 10; decimal 1 10] [0; 0] (decimal 5 10) =
      Ok [[tn2; fp2]; [fn2; tp2]] /\
    confusion_loop ([decimal 9 10] ++ [decimal 8 10; decimal 1 10]) ([1] ++ [0; 0])
      (decimal 5 10) = Ok [[tn1 + tn2; fp1 + fp2]; [fn1 + fn2; tp1 + tp2]].
Proof.
  split; [reflexivity | ]. split; [bits | ]. split; [bits | ].
  apply (matrix_of_concatenation [decimal 9 10] [decimal 8 10; decimal 1 10] [1] [0; 0]);
    [reflexivity | bits | bits].
Defined.

(** X5. A threshold at or below every score predicts every sample positive:
    TN = FN = 0, and each rate is exactly 1.0 when its class has a sample
    (0.0 when it has none). A threshold that no score reaches (a NaN
    threshold included) predicts every sample negative: TP = FP = 0 and both
    rates are 0.0. *)
Theorem threshold_extremes (scores : list float) (labels : list Z) (t : float) :
  length scores = length labels ->
  Forall is_bit labels -> Z.of_nat (length labels) < 2 ^ 53 ->
  let P := Z.of_nat (count_label 1 labels) in
  let N := Z.of_nat (count_label 0 labels) in
  (Forall (fun s => fge s t = true) scores ->
   plot1 scores labels t = Ok [[0; N]; [0; P]] /\
   f1 scores labels t =
     Ok (if 0 <? P then one else pos_zero, if 0 <? N then one else pos_zero)) /\
  (Forall (fun s => fge s t = false) scores ->
   plot1 scores labels t = Ok [[N; 0]; [P; 0]] /\
   f1 scores labels t = Ok (pos_zero, pos_zero)).
Proof.
  intros Hlen Hl Hn P N.
  rewrite plot1_equal_length, f1_equal_length by assumption.
  split; intro Hall.
  - apply (loop_decided_by_label scores labels t true true Hlen Hl Hn).
    eapply Forall_impl; [ | apply Forall_combine_snd; exact Hall ].
    intros [l s] H. cbn [fst snd] in *. rewrite H. destruct (l =? 1); reflexivity.
  - apply (loop_decided_by_label scores labels t false false Hlen Hl Hn).
    eapply Forall_impl; [ | apply Forall_combine_snd; exact Hall ].
    intros [l s] H. cbn [fst snd] in *. rewrite H. destruct (l =? 1); reflexivity.
Qed.

Lemma threshold_extremes_witness :
  (Forall (fun s => fge s pos_zero = true) example_scores /\
   plot1 example_scores [1; 1; 0; 0] pos_zero = Ok [[0; 2]; [0; 2]] /\
   f1 example_scores [1; 1; 0; 0] pos_zero = Ok (one, one)) /\
  (Forall (fun s => fge s S754_nan = false) example_scores /\
   plot1 example_scores [1; 1; 0; 0] S754_nan = Ok [[2; 0]; [2; 0]] /\
   f1 example_scores [1; 1; 0; 0] S754_nan = Ok (pos_zero, pos_zero)).
Proof.
  assert (H0 : Forall (fun s => fge s pos_zero = true) example_scores)
    by (repeat constructor).
  assert (H1 : Forall (fun s => fge s S754_nan = false) example_scores)
    by (repeat constructor).
  destruct (threshold_extremes example_scores [1; 1; 0; 0] pos_zero) as [Ha _];
    [reflexivity | bits | reflexivity | ].
  destruct (threshold_extremes example_scores [1; 1; 0; 0] S754_nan) as [_ Hb];
    [reflexivity | bits | reflexivity | ].
  split; [split; [exact H0 | exact (Ha H0)] | split; [exact H1 | exact (Hb H1)]].
Defined.

(** X6. A threshold that separates the classes (every sample labelled 1
    scores at or above it, every sample labelled 0 below it) gives a
    diagonal matrix, FPR 0.0 and, as soon as there is a sample labelled 1,
    TPR exactly 1.0: the ideal case the page ends on. *)
Theorem perfect_separation (scores : list float) (labels : list Z) (t : float) :
  length scores = length labels ->
  Forall is_bit labels -> Z.of_nat (length labels) < 2 ^ 53 ->
  Forall (fun ls => fge (snd ls) t = (fst ls =? 1)) (combine labels scores) ->
  plot1 scores labels t =
    Ok [[Z.of_nat (count_label 0 labels); 0]; [0; Z.of_nat (count_label 1 labels)]] /\
  f1 scores labels t =
    Ok (if 0 <? Z.of_nat (count_label 1 labels) then one else pos_zero, pos_zero).
Proof.
  intros Hlen Hl Hn Hsep.
  rewrite plot1_equal_length, f1_equal_length by assumption.
  apply (loop_decided_by_label scores labels t true false Hlen Hl Hn).
  eapply Forall_impl; [ | exact Hsep ].
  intros [l s] H. cbn [fst snd] in *. rewrite H. destruct (l =? 1); reflexivity.
Qed.

Lemma perfect_separation_witness :
  length example_scores = length [1; 1; 0; 0] /\
  Forall (fun ls => fge (snd ls) (decimal 5 10) = (fst ls =? 1))
         (combine [1; 1; 0; 0] example_scores) /\
  plot1 example_scores [1; 1; 0; 0] (decimal 5 10) = Ok [[2; 0]; [0; 2]] /\
  f1 example_scores [1; 1; 0; 0] (decimal 5 10) = Ok (one, pos_zero).
Proof.
  assert (H : Forall (fun ls => fge (snd ls) (decimal 5 10) = (fst ls =? 1))
                (combine [1; 1; 0; 0] example_scores)) by (repeat constructor).
  split; [reflexivity | ]. split; [exact H | ].
  apply (perfect_separation example_scores [1; 1; 0; 0] (decimal 5 10));
    [reflexivity | bits | reflexivity | exact H].
Defined.

(** X7. The ends of the ROC curve. When every score lies in [0, 1) and both
    classes have a sample, the sweep starts at TPR = FPR = 1.0 (threshold 0)
    and ends at TPR = FPR = 0.0 (threshold 1), as the page's answer to its
    third question says. *)
Theorem roc_curve_endpoints (scores : list float) (labels : list Z) :
  length scores = length labels ->
  Forall is_bit labels -> Z.of_nat (length labels) < 2 ^ 53 ->
  In 1 labels -> In 0 labels ->
  Forall (fun s => fge s pos_zero = true /\ fge s one = false) scores ->
  exists tprs fprs : list float,
    make_tpr_fpr scores labels = Ok (tprs, fprs) /\
    nth 0 tprs S754_nan = one /\ nth 0 fprs S754_nan = one /\
    nth 10 tprs S754_nan = pos_zero /\ nth 10 fprs S754_nan = pos_zero.
Proof.
  intros Hlen Hl Hn H1 H0 Hrange.
  assert (Hok : Forall index_ok labels)
    by (eapply Forall_impl; [exact is_bit_index_ok | exact Hl]).
  apply count_label_pos in H1. apply count_label_pos in H0.
  assert (Hlo : sweep_point scores labels (Z.of_nat 0) = Ok (one, one)).
  { rewrite sweep_point_loop by lia. change (threshold_at 0) with pos_zero.
    destruct (loop_decided_by_label scores labels pos_zero true true Hlen Hl Hn) as [_ ->].
    - eapply Forall_impl; [ | apply Forall_combine_snd; exact Hrange ].
      intros [l s] [H _]. cbn [fst snd] in *. rewrite H. destruct (l =? 1); reflexivity.
    - destruct (Z.ltb_spec 0 (Z.of_nat (count_label 1 labels))); [ | lia].
      destruct (Z.ltb_spec 0 (Z.of_nat (count_label 0 labels))); [ | lia].
      reflexivity. }
  assert (Hhi : sweep_point scores labels (Z.of_nat 10) = Ok (pos_zero, pos_zero)).
  { rewrite sweep_point_loop by lia. change (threshold_at 10) with one.
    destruct (loop_decided_by_label scores labels one false false Hlen Hl Hn) as [_ ->].
    - eapply Forall_impl; [ | apply Forall_combine_snd; exact Hrange ].
      intros [l s] [_ H]. cbn [fst snd] in *. rewrite H. destruct (l =? 1); reflexivity.
    - reflexivity. }
  rewrite (make_tpr_fpr_points scores labels Hok Hn).
  eexists. eexists. split; [reflexivity | ].
  rewrite !(range_nth _ 0), !(range_nth _ 10), Hlo, Hhi by lia.
  repeat split; reflexivity.
Qed.

Lemma roc_curve_endpoints_witness :
  exists tprs fprs : list float,
    make_tpr_fpr example_scores [1; 1; 0; 0] = Ok (tprs, fprs) /\
    nth 0 tprs S754_nan = one /\ nth 0 fprs S754_nan = one /\
    nth 10 tprs S754_nan = pos_zero /\ nth 10 fprs S754_nan = pos_zero.
Proof.
  apply (roc_curve_endpoints example_scores [1; 1; 0; 0]);
    [reflexivity | bits | reflexivity | left; reflexivity
    | right; right; left; reflexivity | repeat constructor].
Defined.

(** X8. Both rates are non-increasing in the threshold: for [t1 <= t2] the
    TPR and the FPR that [f1] writes at [t2] are at most those it writes at
    [t1], also after rounding to binary64. *)
Theorem rates_monotone_in_threshold (scores : list float) (labels : list Z)
    (t1 t2 : float) :
  length scores = length labels ->
  Forall is_bit labels -> Z.of_nat (length labels) < 2 ^ 53 ->
  fle t1 t2 = true ->
  exists tpr1 fpr1 tpr2 fpr2 : float,
    f1 scores labels t1 = Ok (tpr1, fpr1) /\
    f1 scores labels t2 = Ok (tpr2, fpr2) /\
    fle tpr2 tpr1 = true /\ fle fpr2 fpr1 = true.
Proof.
  intros Hlen Hl Hn Ht. rewrite !f1_equal_length by assumption.
  apply loop_rates_monotone; assumption.
Qed.

Lemma rates_monotone_in_threshold_witness :
  exists tpr1 fpr1 tpr2 fpr2 : float,
    f1 example_scores [1; 0; 1; 0] (decimal 2 10) = Ok (tpr1, fpr1) /\
    f1 example_scores [1; 0; 1; 0] (decimal 85 100) = Ok (tpr2, fpr2) /\
    fle tpr2 tpr1 = true /\ fle fpr2 fpr1 = true.
Proof.
  apply (rates_monotone_in_threshold example_scores [1; 0; 1; 0]);
    [reflexivity | bits | reflexivity | reflexivity].
Defined.

(** X9. The curve the sweep returns is monotone: along the 11 thresholds
    neither the TPR sequence nor the FPR sequence ever increases, for every
    input with labels in {0,1}. *)
Theorem roc_sweep_is_monotone (scores : list float) (labels : list Z) :
  Forall is_bit labels -> Z.of_nat (length labels) < 2 ^ 53 ->
  exists tprs fprs : list float,
    make_tpr_fpr scores labels = Ok (tprs, fprs) /\
    forall i j : nat, (i <= j < 11)%nat ->
      fle (nth j tprs S754_nan) (nth i tprs S754_nan) = true /\
      fle (nth j fprs S754_nan) (nth i fprs S754_nan) = true.
Proof.
  intros Hl Hn.
  assert (Hok : Forall index_ok labels)
    by (eapply Forall_impl; [exact is_bit_index_ok | exact Hl]).
  rewrite (make_tpr_fpr_points scores labels Hok Hn).
  eexists. eexists. split; [reflexivity | ].
  intros i j Hij. rewrite !range_nth by lia.
  rewrite !sweep_point_loop by lia.
  destruct (loop_rates_monotone scores labels (threshold_at i) (threshold_at j) Hl Hn
              (thresholds_ordered i j Hij))
    as (a1 & b1 & a2 & b2 & -> & -> & Ha & Hb).
  cbn [point_or_nan fst snd]. split; assumption.
Qed.

Lemma roc_sweep_is_monotone_witness :
  exists tprs fprs : list float,
    make_tpr_fpr example_scores [1; 0; 1; 0] = Ok (tprs, fprs) /\
    forall i j : nat, (i <= j < 11)%nat ->
      fle (nth j tprs S754_nan) (nth i tprs S754_nan) = true /\
      fle (nth j fprs S754_nan) (nth i fprs S754_nan) = true.
Proof.
  apply (roc_sweep_is_monotone example_scores [1; 0; 1; 0]); [bits | reflexivity].
Defined.

(** X10. [predict] returns one score per label that is 0 or 1 and none for
    any other label: the result has [count(y == 1) + count(y == 0)] entries,
    never more than [len(y)], and exactly [len(y)] if and only if every
    label is 0 or 1. *)
Theorem predict_output_length (rng_state : Type) (seed : Z -> rng_state)
    (draw : rng_state -> float * rng_state) (self : DummyClassifier)
    (X : ndarray) (y : list Z) (st : rng_state) :
  ndim X = 2%nat ->
  exists probs : list float,
    fst (predict seed draw self X y st) = Ok probs /\
    length probs = (count_label 1 y + count_label 0 y)%nat /\
    (length probs <= length y)%nat /\
    (length probs = length y <-> Forall is_bit y).
Proof.
  intro HX. rewrite (predict_2d seed draw self X y st HX). cbn [fst].
  eexists. split; [reflexivity | ].
  rewrite length_app, !scale_length, !randn_length.
  destruct (count_label_bits y) as [Hle Heq].
  split; [reflexivity | ]. split; assumption.
Qed.

Lemma predict_output_length_witness :
  let seed := fun n : Z => n in
  let draw := fun st : Z => (of_Z st, st + 1) in
  let X := {| shape := [3%nat; 1%nat]; data := [] |} in
  exists probs : list float,
    fst (predict seed draw page_clf X [1; 2; 0] 0) = Ok probs /\
    length probs = 2%nat /\
    (length probs <= 3)%nat /\
    (length probs = length [1; 2; 0] <-> Forall is_bit [1; 2; 0]).
Proof.
  cbv zeta.
  apply (predict_output_length Z (fun n : Z => n) (fun st : Z => (of_Z st, st + 1))).
  reflexivity.
Defined.

(** X11. [predict] puts the scores of the positive class first, whatever the
    order of the labels in [y]. For a label vector that lists its ones
    before its zeros, as [main] builds it, the scores line up with the
    labels: the selections [probs[y == 1]] and [probs[y == 0]] that feed
    the histograms are exactly the positive and the negative draws. *)
Theorem predict_positives_first (rng_state : Type) (seed : Z -> rng_state)
    (draw : rng_state -> float * rng_state) (self : DummyClassifier)
    (X : ndarray) (st : rng_state) :
  ndim X = 2%nat ->
  let positives n := scale (pos_label_std self) (pos_label_mean self)
                       (fst (randn draw n (seed 40))) in
  let negatives n := scale (neg_label_std self) (neg_label_mean self)
                       (fst (randn draw n (seed 40))) in
  (forall y : list Z,
     exists probs : list float,
       fst (predict seed draw self X y st) = Ok probs /\
       firstn (count_label 1 y) probs = positives (count_label 1 y) /\
       skipn (count_label 1 y) probs = negatives (count_label 0 y)) /\
  (forall p q : nat,
     let y := repeat 1 p ++ repeat 0 q in
     exists probs : list float,
       fst (predict seed draw self X y st) = Ok probs /\
       length probs = length y /\
       bool_mask probs (map (Z.eqb 1) y) = Ok (positives p) /\
       bool_mask probs (map (Z.eqb 0) y) = Ok (negatives q)).
Proof.
  intros HX positives negatives. split.
  - intro y. rewrite (predict_2d seed draw self X y st HX). cbn [fst].
    eexists. split; [reflexivity | ].
    assert (Hlen : length (positives (count_label 1 y)) = count_label 1 y)
      by (unfold positives; rewrite scale_length, randn_length; reflexivity).
    fold (positives (count_label 1 y)). fold (negatives (count_label 0 y)).
    split.
    + rewrite <- Hlen at 1. rewrite firstn_app, firstn_all, Nat.sub_diag. cbn [firstn].
      apply app_nil_r.
    + rewrite <- Hlen at 1. rewrite skipn_app, skipn_all, Nat.sub_diag. reflexivity.
  - intros p q y. subst y. rewrite (predict_2d seed draw self X _ st HX). cbn [fst].
    destruct (count_label_blocks p q) as [-> ->].
    fold (positives p). fold (negatives q).
    assert (Hp : length (positives p) = p)
      by (unfold positives; rewrite scale_length, randn_length; reflexivity).
    assert (Hq : length (negatives q) = q)
      by (unfold negatives; rewrite scale_length, randn_length; reflexivity).
    eexists. split; [reflexivity | ]. split.
    + rewrite !length_app, !repeat_length, Hp, Hq. reflexivity.
    + rewrite !bool_mask_blocks by assumption. split; reflexivity.
Qed.

Lemma predict_positives_first_witness :
  let seed := fun n : Z => n in
  let draw := fun st : Z => (of_Z st, st + 1) in
  let X := {| shape := [3%nat; 1%nat]; data := [] |} in
  exists probs : list float,
    fst (predict seed draw page_clf X (repeat 1 2 ++ repeat 0 1) 0) = Ok probs /\
    length probs = length (repeat 1 2 ++ repeat 0 1) /\
    bool_mask probs (map (Z.eqb 1) (repeat 1 2 ++ repeat 0 1)) =
      Ok (scale (pos_label_std page_clf) (pos_label_mean page_clf)
            (fst (randn draw 2 (seed 40)))) /\
    bool_mask probs (map (Z.eqb 0) (repeat 1 2 ++ repeat 0 1)) =
      Ok (scale (neg_label_std page_clf) (neg_label_mean page_clf)
            (fst (randn draw 1 (seed 40)))).
Proof.
  cbv zeta.
  apply (proj2 (predict_positives_first Z (fun n : Z => n) (fun st : Z => (of_Z st, st + 1))
                  page_clf {| shape := [3%nat; 1%nat]; data := [] |} 0 eq_refl) 2%nat 1%nat).
Defined.

(** X12. Because the generator is reseeded with 40 before each class is
    drawn, both classes are drawn from the same stream: the i-th positive
    score and the i-th negative score are the same standard-normal draw,
    rescaled with the positive and with the negative class parameters. *)
Theorem predict_classes_share_draws (rng_state : Type) (seed : Z -> rng_state)
    (draw : rng_state -> float * rng_state) (self : DummyClassifier)
    (X : ndarray) (y : list Z) (st : rng_state) (i : nat) :
  ndim X = 2%nat ->
  (i < count_label 1 y)%nat -> (i < count_label 0 y)%nat ->
  exists (probs : list float) (z : float),
    fst (predict seed draw self X y st) = Ok probs /\
    nth_error (fst (randn draw (S i) (seed 40))) i = Some z /\
    nth_error probs i =
      Some (fadd (fmul z (pos_label_std self)) (pos_label_mean self)) /\
    nth_error probs (count_label 1 y + i) =
      Some (fadd (fmul z (neg_label_std self)) (neg_label_mean self)).
Proof.
  intros HX Hp Hq. rewrite (predict_2d seed draw self X y st HX). cbn [fst].
  set (P := count_label 1 y) in *. set (Q := count_label 0 y) in *.
  assert (Hz : exists z, nth_error (fst (randn draw (S i) (seed 40))) i = Some z).
  { destruct (nth_error (fst (randn draw (S i) (seed 40))) i) as [z | ] eqn:E;
      [exists z; reflexivity | ].
    apply nth_error_None in E. rewrite randn_length in E. lia. }
  destruct Hz as [z Hz].
  assert (Hnth : forall n, (i < n)%nat ->
            nth_error (fst (randn draw n (seed 40))) i = Some z).
  { intros n Hn. rewrite <- Hz.
    replace n with (S i + (n - S i))%nat by lia.
    rewrite (randn_prefix draw (S i) (n - S i) (seed 40)).
    rewrite nth_error_firstn.
    destruct (Nat.ltb_spec i (S i)); [reflexivity | lia]. }
  eexists. exists z. split; [reflexivity | ]. split; [exact Hz | ].
  split.
  - rewrite nth_error_app1 by (rewrite scale_length, randn_length; exact Hp).
    unfold scale. rewrite nth_error_map, (Hnth P Hp). reflexivity.
  - rewrite nth_error_app2 by (rewrite scale_length, randn_length; lia).
    rewrite scale_length, randn_length.
    replace (P + i - P)%nat with i by lia.
    unfold scale. rewrite nth_error_map, (Hnth Q Hq). reflexivity.
Qed.

Lemma predict_classes_share_draws_witness :
  let seed := fun n : Z => n in
  let draw := fun st : Z => (of_Z st, st + 1) in
  let X := {| shape := [3%nat; 1%nat]; data := [] |} in
  exists (probs : list float) (z : float),
    fst (predict seed draw page_clf X [1; 0; 1] 0) = Ok probs /\
    nth_error (fst (randn draw 1 (seed 40))) 0 = Some z /\
    nth_error probs 0 =
      Some (fadd (fmul z (pos_label_std page_clf)) (pos_label_mean page_clf)) /\
    nth_error probs (count_label 1 [1; 0; 1] + 0) =
      Some (fadd (fmul z (neg_label_std page_clf)) (neg_label_mean page_clf)).
Proof.
  cbv zeta.
  apply (predict_classes_share_draws Z (fun n : Z => n) (fun st : Z => (of_Z st, st + 1))
           page_clf {| shape := [3%nat; 1%nat]; data := [] |} [1; 0; 1] 0 0%nat);
    [reflexivity | cbn; lia | cbn; lia].
Defined.

(** X13. For every slider value in [0.0, 1.0] the index
    [int(threshold * 10)] that [plot2] uses lies in [0, 10]: on equally long
    scores and labels and an 11-point curve [plot2] raises nothing, and the
    point it annotates is a point of the curve. *)
Theorem plot2_slider_in_range (probabilities : list float) (labels : list Z)
    (tpr fpr : list float) (threshold : float) (area : bool) :
  length probabilities = length labels ->
  length tpr = 11%nat -> length fpr = 11%nat ->
  valid_binary prec emax threshold = true ->
  fle pos_zero threshold = true -> fle threshold one = true ->
  exists (fig : figure2) (k : nat),
    plot2 probabilities labels tpr fpr threshold area = Ok fig /\
    annotation_index threshold = Ok (Z.of_nat k) /\ (k <= 10)%nat /\
    annotation_x fig = nth k fpr S754_nan /\
    annotation_y fig = nth k tpr S754_nan /\
    roc_x fig = fpr /\ roc_y fig = tpr /\ length (diagonal fig) = 11%nat.
Proof.
  intros Hlen Ht Hf Hv Hlo Hhi.
  destruct (annotation_index_range threshold Hv Hlo Hhi) as (k & Hk & Hrange).
  destruct (plot2_equal_length probabilities labels tpr fpr threshold area k Hlen Hk)
    as (pos & neg & _ & _ & Hfig); [rewrite Hf; lia | rewrite Ht; lia | ].
  eexists. exists (Z.to_nat k). split; [exact Hfig | ].
  rewrite Z2Nat.id by lia. split; [exact Hk | ]. split; [lia | ].
  cbn. rewrite Ht. unfold rand_series, range. rewrite !length_map, length_seq.
  repeat split.
Qed.

Lemma plot2_slider_in_range_witness :
  exists (fig : figure2) (k : nat),
    plot2 example_scores [1; 1; 0; 0] (repeat one 11) (repeat pos_zero 11)
      (decimal 29 100) false = Ok fig /\
    annotation_index (decimal 29 100) = Ok (Z.of_nat k) /\ (k <= 10)%nat /\
    annotation_x fig = nth k (repeat pos_zero 11) S754_nan /\
    annotation_y fig = nth k (repeat one 11) S754_nan /\
    roc_x fig = repeat pos_zero 11 /\ roc_y fig = repeat one 11 /\
    length (diagonal fig) = 11%nat.
Proof.
  apply (plot2_slider_in_range example_scores [1; 1; 0; 0] (repeat one 11)
           (repeat pos_zero 11) (decimal 29 100) false); reflexivity.
Defined.

(** X14. The sweep and the annotation agree on the grid: for the slider
    value [i / 10] the index computed by [plot2] is [i], so on the output of
    [make_tpr_fpr] the annotated point is the pair (FPR, TPR) computed at
    that very threshold, the pair [f1] writes for it. *)
Theorem annotation_reads_sweep_point (scores : list float) (labels : list Z)
    (i : nat) (area : bool) :
  length scores = length labels ->
  Forall is_bit labels -> Z.of_nat (length labels) < 2 ^ 53 -> (i < 11)%nat ->
  exists (tprs fprs : list float) (fig : figure2),
    make_tpr_fpr scores labels = Ok (tprs, fprs) /\
    plot2 scores labels tprs fprs (threshold_at i) area = Ok fig /\
    f1 scores labels (threshold_at i) = Ok (annotation_y fig, annotation_x fig) /\
    nth i (diagonal fig) S754_nan = threshold_at i.
Proof.
  intros Hlen Hl Hn Hi.
  assert (Hok : Forall index_ok labels)
    by (eapply Forall_impl; [exact is_bit_index_ok | exact Hl]).
  rewrite (make_tpr_fpr_points scores labels Hok Hn).
  set (tprs := map (fun t => fst (point_or_nan (sweep_point scores labels t))) (range 11)).
  set (fprs := map (fun t => snd (point_or_nan (sweep_point scores labels t))) (range 11)).
  assert (Lt : length tprs = 11%nat) by reflexivity.
  assert (Lf : length fprs = 11%nat) by reflexivity.
  destruct (plot2_equal_length scores labels tprs fprs (threshold_at i) area (Z.of_nat i)
              Hlen (annotation_index_threshold i Hi))
    as (pos & neg & _ & _ & Hfig); [rewrite Lf; lia | rewrite Lt; lia | ].
  exists tprs, fprs. eexists. split; [reflexivity | ]. split; [exact Hfig | ].
  cbn [annotation_x annotation_y diagonal]. rewrite Nat2Z.id. split.
  - unfold tprs, fprs. rewrite !range_nth by assumption.
    destruct (sweep_point_spec scores labels i Hok Hn Hi) as (cm & ab & Hcm & Hr & Hpt).
    rewrite Hpt. cbn [point_or_nan].
    rewrite f1_equal_length, Hcm by assumption. cbn [bind]. rewrite Hr.
    destruct ab; reflexivity.
  - rewrite Lt. unfold rand_series. rewrite (range_nth (fun z => decimal z 10)) by assumption.
    reflexivity.
Qed.

Lemma annotation_reads_sweep_point_witness :
  exists (tprs fprs : list float) (fig : figure2),
    make_tpr_fpr example_scores [1; 1; 0; 0] = Ok (tprs, fprs) /\
    plot2 example_scores [1; 1; 0; 0] tprs fprs (threshold_at 3) true = Ok fig /\
    f1 example_scores [1; 1; 0; 0] (threshold_at 3) = Ok (annotation_y fig, annotation_x fig) /\
    nth 3 (diagonal fig) S754_nan = threshold_at 3.
Proof.
  apply (annotation_reads_sweep_point example_scores [1; 1; 0; 0] 3 true);
    [reflexivity | bits | reflexivity | lia].
Defined.

(** X15. The label vector [main] builds for a sample count [m] holds
    [ceil(m / 2)] ones followed by [floor(m / 2)] zeros: [m] labels in all,
    each 0 or 1, the odd sample going to the positive class. *)
Theorem page_labels_split (m : Z) :
  0 <= m < 2 ^ 53 ->
  exists labels : list Z,
    page_labels m = Ok labels /\
    labels = repeat 1 (Z.to_nat ((m + 1) / 2)) ++ repeat 0 (Z.to_nat (m / 2)) /\
    Z.of_nat (length labels) = m /\ Forall is_bit labels /\
    Z.of_nat (count_label 1 labels) = (m + 1) / 2 /\
    Z.of_nat (count_label 0 labels) = m / 2.
Proof.
  intro Hm. rewrite (page_labels_spec m Hm). eexists. split; [reflexivity | ].
  split; [reflexivity | ].
  destruct (page_labels_facts m Hm) as (Hb & Hlen & H1 & H0).
  repeat split; assumption.
Qed.

Lemma page_labels_split_witness :
  0 <= 1000 < 2 ^ 53 /\
  exists labels : list Z,
    page_labels 1000 = Ok labels /\
    labels = repeat 1 (Z.to_nat ((1000 + 1) / 2)) ++ repeat 0 (Z.to_nat (1000 / 2)) /\
    Z.of_nat (length labels) = 1000 /\ Forall is_bit labels /\
    Z.of_nat (count_label 1 labels) = (1000 + 1) / 2 /\
    Z.of_nat (count_label 0 labels) = 1000 / 2.
Proof.
  split; [lia | ]. apply (page_labels_split 1000). lia.
Defined.

(** X16. The first two figures of the page cannot fail: for every sample
    count [m] (below 2^53), every 2-dimensional [some_rand_input], every
    generator and every slider value, [plot1] returns a matrix whose row of
    actual positives sums to [ceil(m / 2)] and whose row of actual negatives
    sums to [floor(m / 2)], and [f1] writes two rates of the closed unit
    interval. *)
Theorem page_matrix_and_rates (rng_state : Type) (seed : Z -> rng_state)
    (draw : rng_state -> float * rng_state) (m : Z) (X : ndarray)
    (slider_value : float) (st : rng_state) :
  0 <= m < 2 ^ 53 -> ndim X = 2%nat ->
  (exists (tn fp fn tp : Z) (st' : rng_state),
     page_confusion seed draw m X st = (Ok [[tn; fp]; [fn; tp]], st') /\
     0 <= tn /\ 0 <= fp /\ 0 <= fn /\ 0 <= tp /\
     tp + fn = (m + 1) / 2 /\ fp + tn = m / 2) /\
  (exists (tpr fpr : float) (st' : rng_state),
     page_exercise seed draw m X slider_value st = (Ok (tpr, fpr), st') /\
     fle pos_zero tpr = true /\ fle tpr one = true /\
     fle pos_zero fpr = true /\ fle fpr one = true).
Proof.
  intros Hm HX.
  destruct (page_data_spec seed draw m X st Hm HX) as (probs & labels & st' & Hdata & El & Hlen).
  destruct (page_labels_facts m Hm) as (Hb & Hn & H1 & H0). rewrite <- El in Hb, Hn, H1, H0.
  unfold page_confusion, page_exercise. rewrite Hdata.
  assert (Hrow : forall label t,
            count_samples label true probs labels t + count_samples label false probs labels t
            = Z.of_nat (count_label label labels)).
  { intros label t. rewrite count_samples_row, Hlen, firstn_all. reflexivity. }
  split.
  - exists (count_samples 0 false probs labels (decimal 5 10)),
           (count_samples 0 true probs labels (decimal 5 10)),
           (count_samples 1 false probs labels (decimal 5 10)),
           (count_samples 1 true probs labels (decimal 5 10)), st'.
    rewrite plot1_equal_length, confusion_loop_counts by assumption.
    split; [reflexivity | ].
    pose proof (Hrow 1 (decimal 5 10)). pose proof (Hrow 0 (decimal 5 10)).
    repeat split; try apply count_samples_nonneg; lia.
  - rewrite f1_equal_length, rates_of_loop by (assumption || lia).
    pose proof (Hrow 1 slider_value). pose proof (Hrow 0 slider_value).
    pose proof (page_split_sum m ltac:(lia)) as (? & ? & ?).
    destruct (rate_unit (count_samples 1 true probs labels slider_value)
                (count_samples 1 false probs labels slider_value))
      as (a & -> & Ha1 & Ha2 & _); try apply count_samples_nonneg; [lia | ].
    destruct (rate_unit (count_samples 0 true probs labels slider_value)
                (count_samples 0 false probs labels slider_value))
      as (b & -> & Hb1 & Hb2 & _); try apply count_samples_nonneg; [lia | ].
    exists a, b, st'. cbn [bind]. repeat split; assumption.
Qed.

Lemma page_matrix_and_rates_witness :
  let seed := fun n : Z => n in
  let draw := fun st : Z => (of_Z st, st + 1) in
  let X := {| shape := [5%nat; 2%nat]; data := [] |} in
  (exists (tn fp fn tp : Z) (st' : Z),
     page_confusion seed draw 5 X 0 = (Ok [[tn; fp]; [fn; tp]], st') /\
     0 <= tn /\ 0 <= fp /\ 0 <= fn /\ 0 <= tp /\
     tp + fn = (5 + 1) / 2 /\ fp + tn = 5 / 2) /\
  (exists (tpr fpr : float) (st' : Z),
     page_exercise seed draw 5 X S754_nan 0 = (Ok (tpr, fpr), st') /\
     fle pos_zero tpr = true /\ fle tpr one = true /\
     fle pos_zero fpr = true /\ fle fpr one = true).
Proof.
  cbv zeta.
  apply (page_matrix_and_rates Z (fun n : Z => n) (fun st : Z => (of_Z st, st + 1)) 5
           {| shape := [5%nat; 2%nat]; data := [] |} S754_nan 0); [lia | reflexivity].
Defined.

(** X17. The ROC figure of the page cannot fail either: for every slider
    value in [0.0, 1.0] the sweep returns its 11 points and [plot2] draws
    them, filled, with an 11-point diagonal and an annotated point taken
    from the curve. *)
Theorem page_roc_figure (rng_state : Type) (seed : Z -> rng_state)
    (draw : rng_state -> float * rng_state) (m : Z) (X : ndarray)
    (slider_value1 : float) (st : rng_state) :
  0 <= m < 2 ^ 53 -> ndim X = 2%nat ->
  valid_binary prec emax slider_value1 = true ->
  fle pos_zero slider_value1 = true -> fle slider_value1 one = true ->
  exists (fig : figure2) (k : nat) (st' : rng_state),
    page_roc seed draw m X slider_value1 st = (Ok fig, st') /\
    length (roc_x fig) = 11%nat /\ length (roc_y fig) = 11%nat /\
    length (diagonal fig) = 11%nat /\ roc_filled fig = true /\
    (k <= 10)%nat /\
    annotation_x fig = nth k (roc_x fig) S754_nan /\
    annotation_y fig = nth k (roc_y fig) S754_nan.
Proof.
  intros Hm HX Hv Hlo Hhi.
  destruct (page_data_spec seed draw m X st Hm HX) as (probs & labels & st' & Hdata & El & Hlen).
  destruct (page_labels_facts m Hm) as (Hb & Hn & _ & _). rewrite <- El in Hb, Hn.
  assert (Hok : Forall index_ok labels)
    by (eapply Forall_impl; [exact is_bit_index_ok | exact Hb]).
  unfold page_roc. rewrite Hdata.
  rewrite (make_tpr_fpr_points probs labels Hok ltac:(lia)). cbn [bind].
  set (tprs := map (fun t => fst (point_or_nan (sweep_point probs labels t))) (range 11)).
  set (fprs := map (fun t => snd (point_or_nan (sweep_point probs labels t))) (range 11)).
  destruct (annotation_index_range slider_value1 Hv Hlo Hhi) as (k & Hk & Hrange).
  destruct (plot2_equal_length probs labels tprs fprs slider_value1 true k Hlen Hk)
    as (pos & neg & _ & _ & Hfig); [cbn; lia | cbn; lia | ].
  eexists. exists (Z.to_nat k), st'. split; [rewrite Hfig; reflexivity | ].
  cbn [roc_x roc_y diagonal roc_filled annotation_x annotation_y].
  repeat split; try reflexivity. lia.
Qed.

Lemma page_roc_figure_witness :
  let seed := fun n : Z => n in
  let draw := fun st : Z => (of_Z st, st + 1) in
  let X := {| shape := [5%nat; 2%nat]; data := [] |} in
  exists (fig : figure2) (k : nat) (st' : Z),
    page_roc seed draw 5 X (decimal 7 10) 0 = (Ok fig, st') /\
    length (roc_x fig) = 11%nat /\ length (roc_y fig) = 11%nat /\
    length (diagonal fig) = 11%nat /\ roc_filled fig = true /\
    (k <= 10)%nat /\
    annotation_x fig = nth k (roc_x fig) S754_nan /\
    annotation_y fig = nth k (roc_y fig) S754_nan.
Proof.
  cbv zeta.
  apply (page_roc_figure Z (fun n : Z => n) (fun st : Z => (of_Z st, st + 1)) 5
           {| shape := [5%nat; 2%nat]; data := [] |} (decimal 7 10) 0);
    (lia || reflexivity).
Defined.
